(** * vacuumTubeMenorah: a shallow embedding of the firmware

    The sketch [vacuumTubeMenorah.ino] drives nine WS2812 LEDs, one per
    switch, in two modes (candle flicker and rainbow).  This file embeds the
    sketch's globals as a record, its functions as state-passing functions
    over that record, and the Arduino platform (digital inputs, the
    millisecond clock, the pseudo-random generator and the NeoPixel colour
    helpers) as a record of oracles. *)

From Stdlib Require Import ZArith List Bool Lia.
From stdpp Require Import base list.
From Equations Require Import Equations.
Import ListNotations.

Local Open Scope Z_scope.

(** ** Machine integers of the ATmega328 (int is 16 bits, long is 32) *)

Definition uint8 (x : Z) : Z := x mod 256.
Definition uint16 (x : Z) : Z := x mod 65536.
Definition uint32 (x : Z) : Z := x mod 4294967296.
Definition int16 (x : Z) : Z := (x + 32768) mod 65536 - 32768.
Definition int32 (x : Z) : Z := (x + 2147483648) mod 4294967296 - 2147483648.

(** ** Constants of the sketch *)

Definition BRIGHTNESS : Z := 100.
Definition LED_COUNT : nat := 9.
Definition LED_PIN : Z := 9.
Definition MODE_PIN : Z := 8.
Definition TOTAL_MODES : Z := 2.

Definition flickerStartRed : Z := 255.
Definition flickerStartGreen : Z := 96.
Definition flickerStartBlue : Z := 12.

Definition flickerDelayHigh : Z := 50.
Definition flickerDelayLow : Z := 50.
Definition flickerFlickerHigh : Z := 40.
Definition flickerFlickerLow : Z := 0.

(** Pin number of analog input 0 on the ATmega328 boards (pins_arduino.h). *)
Definition A0 : Z := 14.

(** ** Data model *)

(** The two levels [digitalRead] can return. *)
Inductive level : Set := LOW | HIGH.

Definition level_eqb (a b : level) : bool :=
  match a, b with
  | LOW, LOW | HIGH, HIGH => true
  | _, _ => false
  end.

Module candleLed.
Record t : Set := mk {
  order : Z;      (* The WS2812 order of the LED. *)
  pin : Z;        (* The Arduino pin number of the LED. *)
  state : bool    (* Whether the switch of that LED is on or off. *)
}.
Definition with_state (b : bool) (c : t) : t := mk (order c) (pin c) b.
End candleLed.

Module candleFlicker.
Record t : Set := mk {
  red : Z;
  green : Z;
  blue : Z;
  delay : Z;      (* ticks this candle keeps its colour before resetting *)
  flicker : Z;    (* value subtracted from the start colours *)
  time : Z
}.
Definition with_red (v : Z) (f : t) : t :=
  mk v (green f) (blue f) (delay f) (flicker f) (time f).
Definition with_green (v : Z) (f : t) : t :=
  mk (red f) v (blue f) (delay f) (flicker f) (time f).
Definition with_blue (v : Z) (f : t) : t :=
  mk (red f) (green f) v (delay f) (flicker f) (time f).
Definition with_delay (v : Z) (f : t) : t :=
  mk (red f) (green f) (blue f) v (flicker f) (time f).
Definition with_flicker (v : Z) (f : t) : t :=
  mk (red f) (green f) (blue f) (delay f) v (time f).
End candleFlicker.

#[global] Instance candleLed_inhabited : Inhabited candleLed.t :=
  populate (candleLed.mk 0 0 false).
#[global] Instance candleFlicker_inhabited : Inhabited candleFlicker.t :=
  populate (candleFlicker.mk 0 0 0 0 0 0).

(** A pixel as the strip driver receives it: the three 8-bit arguments of
    [setPixelColor(n, r, g, b)], in argument order. *)
Abbreviation pixel := (Z * Z * Z)%type.

(** What the sketch makes observable: frames flushed by [strip.show()] and
    pauses requested with [delay(ms)]. *)
Inductive Event : Set :=
| Show (frame : list pixel)
| Delay (ms : Z).

(** The platform the sketch runs on.  The n-th call of an input primitive
    is answered by the oracle at index n. *)
Record Platform : Type := {
  digitalRead : nat -> Z -> level;   (* n-th read, pin *)
  millis : nat -> Z;                 (* n-th call of millis() *)
  rawRandom : nat -> N;              (* n-th value of the libc generator *)
  ColorHSV : Z -> Z;                 (* hue (16 bit) to packed RGB *)
  gamma32 : Z -> Z                   (* gamma correction of a packed RGB *)
}.

(** The globals of the sketch, the strip's pixel buffer, the number of
    calls made so far to each input primitive, and the events emitted so far
    (latest first). *)
Record State : Type := mkState {
  candles : list candleLed.t;
  mode : Z;
  flickerMillisecondsCurrent : Z;
  flickerMillisecondsDifference : Z;
  flickerMillisecondsLast : Z;
  flickers : list candleFlicker.t;
  pixels : list pixel;
  reads : nat;
  ticks : nat;
  draws : nat;
  out : list Event
}.

Definition with_candles (v : list candleLed.t) (s : State) : State :=
  mkState v (mode s) (flickerMillisecondsCurrent s)
    (flickerMillisecondsDifference s) (flickerMillisecondsLast s)
    (flickers s) (pixels s) (reads s) (ticks s) (draws s) (out s).
Definition with_mode (v : Z) (s : State) : State :=
  mkState (candles s) v (flickerMillisecondsCurrent s)
    (flickerMillisecondsDifference s) (flickerMillisecondsLast s)
    (flickers s) (pixels s) (reads s) (ticks s) (draws s) (out s).
Definition with_flickerMillisecondsCurrent (v : Z) (s : State) : State :=
  mkState (candles s) (mode s) v
    (flickerMillisecondsDifference s) (flickerMillisecondsLast s)
    (flickers s) (pixels s) (reads s) (ticks s) (draws s) (out s).
Definition with_flickerMillisecondsDifference (v : Z) (s : State) : State :=
  mkState (candles s) (mode s) (flickerMillisecondsCurrent s)
    v (flickerMillisecondsLast s)
    (flickers s) (pixels s) (reads s) (ticks s) (draws s) (out s).
Definition with_flickerMillisecondsLast (v : Z) (s : State) : State :=
  mkState (candles s) (mode s) (flickerMillisecondsCurrent s)
    (flickerMillisecondsDifference s) v
    (flickers s) (pixels s) (reads s) (ticks s) (draws s) (out s).
Definition with_flickers (v : list candleFlicker.t) (s : State) : State :=
  mkState (candles s) (mode s) (flickerMillisecondsCurrent s)
    (flickerMillisecondsDifference s) (flickerMillisecondsLast s)
    v (pixels s) (reads s) (ticks s) (draws s) (out s).
Definition with_pixels (v : list pixel) (s : State) : State :=
  mkState (candles s) (mode s) (flickerMillisecondsCurrent s)
    (flickerMillisecondsDifference s) (flickerMillisecondsLast s)
    (flickers s) v (reads s) (ticks s) (draws s) (out s).
Definition with_reads (v : nat) (s : State) : State :=
  mkState (candles s) (mode s) (flickerMillisecondsCurrent s)
    (flickerMillisecondsDifference s) (flickerMillisecondsLast s)
    (flickers s) (pixels s) v (ticks s) (draws s) (out s).
Definition with_ticks (v : nat) (s : State) : State :=
  mkState (candles s) (mode s) (flickerMillisecondsCurrent s)
    (flickerMillisecondsDifference s) (flickerMillisecondsLast s)
    (flickers s) (pixels s) (reads s) v (draws s) (out s).
Definition with_draws (v : nat) (s : State) : State :=
  mkState (candles s) (mode s) (flickerMillisecondsCurrent s)
    (flickerMillisecondsDifference s) (flickerMillisecondsLast s)
    (flickers s) (pixels s) (reads s) (ticks s) v (out s).
Definition emit (e : Event) (s : State) : State :=
  mkState (candles s) (mode s) (flickerMillisecondsCurrent s)
    (flickerMillisecondsDifference s) (flickerMillisecondsLast s)
    (flickers s) (pixels s) (reads s) (ticks s) (draws s) (e :: out s).

(** The globals as the sketch initialises them; the strip buffer is cleared
    by [strip.clear()] in [setup]. *)
Definition initial_candles : list candleLed.t :=
  [ candleLed.mk 0 A0 false;
    candleLed.mk 1 6 false;
    candleLed.mk 2 12 false;
    candleLed.mk 3 11 false;
    candleLed.mk 4 10 false;
    candleLed.mk 5 2 false;
    candleLed.mk 6 3 false;
    candleLed.mk 7 4 false;
    candleLed.mk 8 5 false ].

Definition initial_flickers : list candleFlicker.t :=
  replicate LED_COUNT
    (candleFlicker.mk flickerStartRed flickerStartGreen flickerStartBlue 0 0 0).

Definition initial : State :=
  mkState initial_candles 0 0 0 0 initial_flickers
    (replicate LED_COUNT (0, 0, 0)) 0 0 0 [].

(** [for (i = 0; i < n; i++) body] over a state. *)
Definition for_upto {S : Type} (n : nat) (body : nat -> S -> S) (s : S) : S :=
  fold_left (fun acc i => body i acc) (seq 0 n) s.

(** ** The strip driver, at its interface *)

Definition numPixels (s : State) : nat := length (pixels s).

(** [strip.setPixelColor(n, r, g, b)]: the arguments are 8 bit; an index
    past the end of the strip is ignored by the driver. *)
Definition setPixelColorRGB (n : nat) (r g b : Z) (s : State) : State :=
  with_pixels (<[n := (uint8 r, uint8 g, uint8 b)]> (pixels s)) s.

(** [strip.setPixelColor(n, c)] with a packed 32-bit colour. *)
Definition setPixelColor (n : nat) (c : Z) (s : State) : State :=
  with_pixels
    (<[n := (uint8 (Z.shiftr c 16), uint8 (Z.shiftr c 8), uint8 c)]> (pixels s))
    s.

(** [strip.show()]. *)
Definition show (s : State) : State := emit (Show (pixels s)) s.

(** [delay(ms)], whose parameter is an unsigned long. *)
Definition delay (ms : Z) (s : State) : State := emit (Delay (uint32 ms)) s.

(** ** Arduino's [random] (WMath.cpp) over the raw generator *)

(** [random(howbig)]: 0 when [howbig] is 0, else the next raw value modulo
    [howbig]. *)
Definition random1 (P : Platform) (howbig : Z) (s : State) : Z * State :=
  if howbig =? 0 then (0, s)
  else (Z.rem (Z.of_N (rawRandom P (draws s))) howbig,
        with_draws (S (draws s)) s).

(** [random(howsmall, howbig)]: [howsmall] when the range is empty. *)
Definition random (P : Platform) (howsmall howbig : Z) (s : State) : Z * State :=
  if howsmall >=? howbig then (howsmall, s)
  else let (r, s1) := random1 P (howbig - howsmall) s in
       (r + howsmall, s1).

(** ** readSwitches *)

(** The condition under which [readSwitches] flips the mode. *)
Definition modeMismatch (modeButtonState : level) (mode : Z) : bool :=
  (level_eqb modeButtonState LOW && (mode =? 0))
  || (level_eqb modeButtonState HIGH && (mode =? 1)).

(** Body of the loop over the candles. *)
Definition readSwitches_candle (P : Platform) (candleIndex : nat) (s : State)
  : State :=
  let lvl := digitalRead P (reads s) (candleLed.pin (candles s !!! candleIndex)) in
  let s1 := with_reads (S (reads s)) s in
  let s2 :=
    with_candles
      (<[candleIndex :=
           candleLed.with_state (level_eqb lvl LOW) (candles s1 !!! candleIndex)]>
         (candles s1)) s1 in
  with_candles
    (<[candleIndex := candleLed.with_state true (candles s2 !!! candleIndex)]>
       (candles s2)) s2.

Definition readSwitches (P : Platform) (s : State) : bool * State :=
  let s1 := for_upto LED_COUNT (readSwitches_candle P) s in
  let modeButtonState := digitalRead P (reads s1) MODE_PIN in
  let s2 := with_reads (S (reads s1)) s1 in
  if modeMismatch modeButtonState (mode s2) then
    (true, with_mode (if mode s2 =? 1 then 0 else 1) s2)
  else (false, s2).

(** ** flicker *)

Definition clamp0 (x : Z) : Z := if x <? 0 then 0 else x.

(** New colours of a candle from its flicker value: the start colours less
    the flicker, brought back to zero where they went negative. *)
Definition flicker_colours (f0 : candleFlicker.t) : candleFlicker.t :=
  let f1 :=
    candleFlicker.with_red
      (int16 (flickerStartRed - candleFlicker.flicker f0)) f0 in
  let f2 :=
    candleFlicker.with_green
      (int16 (flickerStartGreen - candleFlicker.flicker f1)) f1 in
  let f3 :=
    candleFlicker.with_blue
      (int16 (flickerStartBlue - candleFlicker.flicker f2)) f2 in
  let f4 := candleFlicker.with_red (clamp0 (candleFlicker.red f3)) f3 in
  let f5 := candleFlicker.with_green (clamp0 (candleFlicker.green f4)) f4 in
  candleFlicker.with_blue (clamp0 (candleFlicker.blue f5)) f5.

(** The reset of one candle: new delay and flicker, then the colours. *)
Definition flicker_reset (P : Platform) (i : nat) (s : State) : State :=
  let (d, s1) := random P flickerDelayLow flickerDelayHigh s in
  let s2 :=
    with_flickers
      (<[i := candleFlicker.with_delay (int16 d) (flickers s1 !!! i)]>
         (flickers s1)) s1 in
  let (m, s3) := random P flickerFlickerLow flickerFlickerHigh s2 in
  with_flickers
    (<[i := flicker_colours
              (candleFlicker.with_flicker (int16 m) (flickers s3 !!! i))]>
       (flickers s3)) s3.

(** Body of the loop over the LEDs. *)
Definition flicker_led (P : Platform) (i : nat) (s : State) : State :=
  let s1 :=
    if candleFlicker.delay (flickers s !!! i) <=? 0
    then flicker_reset P i s else s in
  let f := flickers s1 !!! i in
  let s2 :=
    if candleLed.state (candles s1 !!! i)
    then setPixelColorRGB i (candleFlicker.green f) (candleFlicker.red f)
           (candleFlicker.blue f) s1
    else setPixelColor i 0 s1 in
  with_flickers
    (<[i := candleFlicker.with_delay
              (int16 (candleFlicker.delay (flickers s2 !!! i) - 1))
              (flickers s2 !!! i)]> (flickers s2)) s2.

(** The throttled part of [flicker]. *)
Definition flicker_tick (P : Platform) (s : State) : State :=
  let s1 := snd (readSwitches P s) in
  let s2 := with_flickerMillisecondsLast (flickerMillisecondsCurrent s1) s1 in
  show (for_upto LED_COUNT (flicker_led P) s2).

Definition flicker (P : Platform) (s : State) : State :=
  let s1 :=
    with_flickerMillisecondsCurrent (int32 (millis P (ticks s)))
      (with_ticks (S (ticks s)) s) in
  let s2 :=
    with_flickerMillisecondsDifference
      (int32 (flickerMillisecondsCurrent s1 - flickerMillisecondsLast s1)) s1 in
  if flickerMillisecondsDifference s2 >? 1 then flicker_tick P s2 else s2.

(** ** rainbow *)

Definition rainbow_limit : Z := 5 * 65536.

(** [i * 65536L / strip.numPixels()], a division of longs. *)
Definition hueOffset (i : nat) (s : State) : Z :=
  Z.quot (Z.of_nat i * 65536) (Z.of_nat (numPixels s)).

(** The local [pixelHue]: the sum is computed as a long and stored in an
    int; [ColorHSV] then takes it as a uint16_t. *)
Definition pixelHue (firstPixelHue : Z) (i : nat) (s : State) : Z :=
  int16 (firstPixelHue + hueOffset i s).

(** Body of the loop over the pixels. *)
Definition rainbow_pixel (P : Platform) (firstPixelHue : Z) (i : nat)
  (s : State) : State :=
  if candleLed.state (candles s !!! i)
  then setPixelColor i
         (gamma32 P (ColorHSV P (uint16 (pixelHue firstPixelHue i s)))) s
  else setPixelColor i 0 s.

(** One frame: every pixel, then the flush and the pause. *)
Definition rainbow_frame (P : Platform) (wait firstPixelHue : Z) (s : State)
  : State :=
  delay wait
    (show (for_upto (numPixels s) (rainbow_pixel P firstPixelHue) s)).

(** The sweep, from a given value of the loop variable. *)
Equations? rainbow_from (P : Platform) (wait firstPixelHue : Z) (s : State)
  : State by wf (Z.to_nat (rainbow_limit - firstPixelHue)) lt :=
  rainbow_from P wait firstPixelHue s
    with Z_lt_dec firstPixelHue rainbow_limit => {
    | right _ => s
    | left _ =>
        let polled := readSwitches P s in
        if fst polled then snd polled
        else rainbow_from P wait (firstPixelHue + 256)
               (rainbow_frame P wait firstPixelHue (snd polled)) }.
Proof. unfold rainbow_limit in *. lia. Qed.

Definition rainbow (P : Platform) (wait : Z) (s : State) : State :=
  rainbow_from P wait 0 s.

(** ** setup and loop *)

(** One pass of [loop]: the animator of the current mode. *)
Definition loop (P : Platform) (s : State) : State :=
  if mode s =? 0 then flicker P s
  else if mode s =? 1 then rainbow P 10 s
  else s.

(** [setup]: the strip is cleared and flushed, then the switches are read
    once (pin modes, brightness and the seed of the generator belong to the
    platform). *)
Definition setup (P : Platform) (s : State) : State :=
  let s1 := show (with_pixels (replicate (numPixels s) (0, 0, 0)) s) in
  snd (readSwitches P s1).

(** ** Concrete platforms *)

(** A bench on which every input line reads [lvl], the clock always shows
    [now] and the raw generator always yields [raw]; the colour helpers are
    the identity. *)
Definition bench (lvl : level) (now : Z) (raw : N) : Platform :=
  {| digitalRead := fun _ _ => lvl;
     millis := fun _ => now;
     rawRandom := fun _ => raw;
     ColorHSV := fun h => h;
     gamma32 := fun c => c |}.

(** A bench whose mode line reads LOW for the first [t0] reads and HIGH
    from then on; the switches of the candles are all closed (LOW). *)
Definition toggling_bench (t0 : nat) : Platform :=
  {| digitalRead := fun n pin =>
       if pin =? MODE_PIN then (if (n <? t0)%nat then LOW else HIGH) else LOW;
     millis := fun _ => 2;
     rawRandom := fun _ => 0%N;
     ColorHSV := fun h => h;
     gamma32 := fun c => c |}.

(** The state in which call number [k] (from 0) is made, in a run of
    successive [readSwitches] calls started in [s]. *)
Definition after_polls (P : Platform) (k : nat) (s : State) : State :=
  Nat.iter k (fun st => snd (readSwitches P st)) s.

(** The candles once the loop of [readSwitches] has visited the first [n]. *)
Definition switched (n : nat) (cs : list candleLed.t) : list candleLed.t :=
  fold_left (fun acc i => <[i := candleLed.with_state true (acc !!! i)]> acc)
    (seq 0 n) cs.

(** The values a candle record can hold between ticks: channels that fit
    the 8-bit arguments of the driver, and a countdown that fits an int. *)
Definition flicker_ok (f : candleFlicker.t) : Prop :=
  0 <= candleFlicker.red f <= 255
  /\ 0 <= candleFlicker.green f <= 255
  /\ 0 <= candleFlicker.blue f <= 255
  /\ -32768 <= candleFlicker.delay f <= 32767.

(** The state in which a sweep that has not been aborted so far starts its
    frame number [k] (from 0): each earlier frame polled the switches and
    was then drawn, flushed and followed by the pause. *)
Fixpoint sweep_state (P : Platform) (wait : Z) (k : nat) (s : State) : State :=
  match k with
  | O => s
  | S k' =>
      rainbow_frame P wait (256 * Z.of_nat k')
        (snd (readSwitches P (sweep_state P wait k' s)))
  end.

(** The pixel [rainbow_pixel] sets at position [i] of a strip of [n] pixels
    when the candle is on. *)
Definition rainbow_colour (P : Platform) (n : nat) (firstPixelHue : Z) (i : nat)
  : pixel :=
  let c :=
    gamma32 P
      (ColorHSV P
         (uint16
            (int16 (firstPixelHue + Z.quot (Z.of_nat i * 65536) (Z.of_nat n)))))
  in (uint8 (Z.shiftr c 16), uint8 (Z.shiftr c 8), uint8 c).

(** A whole frame of the nine-pixel strip with every candle on. *)
Definition rainbow_pixels (P : Platform) (firstPixelHue : Z) : list pixel :=
  map (rainbow_colour P LED_COUNT firstPixelHue) (seq 0 LED_COUNT).

(** The events of frame number [k] of a sweep, and of its first [n] frames
    (latest first, as in [out]). *)
Definition frame_events (P : Platform) (wait : Z) (k : nat) : list Event :=
  [Delay (uint32 wait); Show (rainbow_pixels P (256 * Z.of_nat k))].

Definition sweep_events (P : Platform) (wait : Z) (n : nat) : list Event :=
  flat_map (frame_events P wait) (rev (seq 0 n)).

(** Number of frames flushed in a list of events. *)
Fixpoint shows (l : list Event) : nat :=
  match l with
  | [] => 0
  | Show _ :: l' => S (shows l')
  | Delay _ :: l' => shows l'
  end.

(** What holds of the globals whenever [loop] is entered: nine candles,
    nine flicker records in range, nine pixels. *)
Definition State_ok (s : State) : Prop :=
  length (candles s) = LED_COUNT
  /\ length (flickers s) = LED_COUNT
  /\ numPixels s = LED_COUNT
  /\ forall i : nat, (i < LED_COUNT)%nat -> flicker_ok (flickers s !!! i).

(** The state of [flicker] once it has read the clock and taken the
    difference, before the test of the throttle. *)
Definition flicker_clocked (P : Platform) (s : State) : State :=
  let s1 :=
    with_flickerMillisecondsCurrent (int32 (millis P (ticks s)))
      (with_ticks (S (ticks s)) s) in
  with_flickerMillisecondsDifference
    (int32 (flickerMillisecondsCurrent s1 - flickerMillisecondsLast s1)) s1.

(** Whether this call of [flicker] passes the throttle. *)
Definition flicker_due (P : Platform) (s : State) : bool :=
  flickerMillisecondsDifference (flicker_clocked P s) >? 1.

(** The colour of a flicker record as [flicker] hands it to the driver. *)
Definition flame_pixel (f : candleFlicker.t) : pixel :=
  (candleFlicker.green f, candleFlicker.red f, candleFlicker.blue f).

(** The records a candle can hold once the sketch runs: a magnitude
    between 0 and 39, the start colours less that magnitude (blue brought
    back to zero), a countdown between 0 and 49, and the unused [time] at
    zero. *)
Definition flame_ok (f : candleFlicker.t) : Prop :=
  0 <= candleFlicker.flicker f <= 39
  /\ candleFlicker.red f = flickerStartRed - candleFlicker.flicker f
  /\ candleFlicker.green f = flickerStartGreen - candleFlicker.flicker f
  /\ candleFlicker.blue f
     = Z.max 0 (flickerStartBlue - candleFlicker.flicker f)
  /\ 0 <= candleFlicker.delay f <= 49
  /\ candleFlicker.time f = 0.

Definition Flames_ok (s : State) : Prop :=
  length (candles s) = LED_COUNT
  /\ length (flickers s) = LED_COUNT
  /\ numPixels s = LED_COUNT
  /\ forall i : nat, (i < LED_COUNT)%nat -> flame_ok (flickers s !!! i).

(** Number of candles before position [n] whose countdown has expired. *)
Fixpoint expired_before (fl : list candleFlicker.t) (n : nat) : nat :=
  match n with
  | O => O
  | S n' =>
      (expired_before fl n'
       + if (candleFlicker.delay (fl !!! n') <=? 0)%Z then 1 else 0)%nat
  end.

(** * Properties *)

(** ** Machine integers *)

Lemma int16_small (x : Z) : -32768 <= x <= 32767 -> int16 x = x.
Proof.
  intros H. unfold int16.
  rewrite Z.mod_small by lia. lia.
Qed.

Lemma uint8_small (x : Z) : 0 <= x <= 255 -> uint8 x = x.
Proof. intros H. unfold uint8. apply Z.mod_small. lia. Qed.

Lemma uint16_int16 (x : Z) : uint16 (int16 x) = uint16 x.
Proof.
  unfold uint16, int16.
  rewrite Zminus_mod_idemp_l.
  f_equal. lia.
Qed.

Lemma clamp0_max (x : Z) : clamp0 x = Z.max 0 x.
Proof. unfold clamp0. destruct (Z.ltb_spec x 0); lia. Qed.

(** ** Loops *)

Lemma for_upto_0 {S : Type} (body : nat -> S -> S) (s : S) :
  for_upto 0 body s = s.
Proof. reflexivity. Qed.

Lemma for_upto_S {S : Type} (n : nat) (body : nat -> S -> S) (s : S) :
  for_upto (Datatypes.S n) body s = body n (for_upto n body s).
Proof.
  unfold for_upto. rewrite seq_S, fold_left_app. reflexivity.
Qed.

(** ** readSwitches *)

Lemma switched_S (n : nat) (cs : list candleLed.t) :
  switched (S n) cs =
  <[n := candleLed.with_state true (switched n cs !!! n)]> (switched n cs).
Proof.
  unfold switched. rewrite seq_S, fold_left_app. reflexivity.
Qed.

Lemma switched_length (n : nat) (cs : list candleLed.t) :
  length (switched n cs) = length cs.
Proof.
  induction n as [|n IH]; [reflexivity|].
  rewrite switched_S, length_insert. exact IH.
Qed.

Lemma switched_state (n i : nat) (cs : list candleLed.t) :
  (i < n)%nat -> (i < length cs)%nat ->
  candleLed.state (switched n cs !!! i) = true.
Proof.
  induction n as [|n IH]; intros Hi Hlen; [lia|].
  rewrite switched_S.
  destruct (decide (i = n)) as [->|Hne].
  - rewrite list_lookup_total_insert_eq by (rewrite switched_length; lia).
    reflexivity.
  - rewrite list_lookup_total_insert_ne by congruence.
    apply IH; lia.
Qed.

Lemma switched_pin (n i : nat) (cs : list candleLed.t) :
  candleLed.pin (switched n cs !!! i) = candleLed.pin (cs !!! i).
Proof.
  induction n as [|n IH]; [reflexivity|].
  rewrite switched_S.
  destruct (decide (i = n)) as [->|Hne].
  - destruct (Nat.lt_ge_cases n (length (switched n cs))) as [Hlt|Hge].
    + rewrite list_lookup_total_insert_eq by exact Hlt. simpl. exact IH.
    + rewrite list_insert_ge by exact Hge. exact IH.
  - rewrite list_lookup_total_insert_ne by congruence. exact IH.
Qed.

(** One turn of the loop: the state computed from the pin is overwritten
    with [true], and one read is consumed. *)
Lemma readSwitches_candle_eq (P : Platform) (n : nat) (s : State) :
  readSwitches_candle P n s =
  with_candles (<[n := candleLed.with_state true (candles s !!! n)]> (candles s))
    (with_reads (S (reads s)) s).
Proof.
  unfold readSwitches_candle, with_candles, with_reads. simpl.
  f_equal.
  destruct (Nat.lt_ge_cases n (length (candles s))) as [Hlt|Hge].
  - rewrite list_lookup_total_insert_eq by exact Hlt.
    rewrite list_insert_insert_eq. reflexivity.
  - rewrite !list_insert_ge by (rewrite ?length_insert; exact Hge).
    reflexivity.
Qed.

Lemma readSwitches_loop_eq (P : Platform) (n : nat) (s : State) :
  for_upto n (readSwitches_candle P) s =
  with_candles (switched n (candles s)) (with_reads (n + reads s) s).
Proof.
  induction n as [|n IH].
  - destruct s; reflexivity.
  - rewrite for_upto_S, IH, readSwitches_candle_eq, switched_S.
    reflexivity.
Qed.

(** What a call of [readSwitches] returns and leaves behind. *)
Lemma readSwitches_eq (P : Platform) (s : State) :
  readSwitches P s =
  let lvl := digitalRead P (9 + reads s) MODE_PIN in
  let s2 :=
    with_candles (switched LED_COUNT (candles s))
      (with_reads (10 + reads s) s) in
  if modeMismatch lvl (mode s)
  then (true, with_mode (if mode s =? 1 then 0 else 1) s2)
  else (false, s2).
Proof.
  unfold readSwitches. rewrite readSwitches_loop_eq. reflexivity.
Qed.

Lemma readSwitches_fst (P : Platform) (s : State) :
  fst (readSwitches P s) =
  modeMismatch (digitalRead P (9 + reads s) MODE_PIN) (mode s).
Proof.
  rewrite readSwitches_eq. cbv zeta.
  destruct (modeMismatch _ _); reflexivity.
Qed.

Lemma readSwitches_mode (P : Platform) (s : State) :
  mode (snd (readSwitches P s)) =
  if modeMismatch (digitalRead P (9 + reads s) MODE_PIN) (mode s)
  then (if mode s =? 1 then 0 else 1) else mode s.
Proof.
  rewrite readSwitches_eq. cbv zeta.
  destruct (modeMismatch _ _); reflexivity.
Qed.

Lemma readSwitches_reads (P : Platform) (s : State) :
  reads (snd (readSwitches P s)) = (10 + reads s)%nat.
Proof.
  rewrite readSwitches_eq. cbv zeta.
  destruct (modeMismatch _ _); reflexivity.
Qed.

Lemma readSwitches_candles (P : Platform) (s : State) :
  candles (snd (readSwitches P s)) = switched LED_COUNT (candles s).
Proof.
  rewrite readSwitches_eq. cbv zeta.
  destruct (modeMismatch _ _); reflexivity.
Qed.

Lemma readSwitches_pixels (P : Platform) (s : State) :
  pixels (snd (readSwitches P s)) = pixels s.
Proof.
  rewrite readSwitches_eq. cbv zeta.
  destruct (modeMismatch _ _); reflexivity.
Qed.

Lemma readSwitches_out (P : Platform) (s : State) :
  out (snd (readSwitches P s)) = out s.
Proof.
  rewrite readSwitches_eq. cbv zeta.
  destruct (modeMismatch _ _); reflexivity.
Qed.

Lemma readSwitches_flickers (P : Platform) (s : State) :
  flickers (snd (readSwitches P s)) = flickers s.
Proof.
  rewrite readSwitches_eq. cbv zeta.
  destruct (modeMismatch _ _); reflexivity.
Qed.

(** Every candle of the nine is left switched on, whatever its pin read. *)
Lemma readSwitches_state (P : Platform) (s : State) (i : nat) :
  (i < LED_COUNT)%nat -> (i < length (candles s))%nat ->
  candleLed.state (candles (snd (readSwitches P s)) !!! i) = true.
Proof.
  intros Hi Hlen. rewrite readSwitches_candles.
  apply switched_state; assumption.
Qed.

(** Once the mode has been set against a level, that level asks for no
    further change. *)
Lemma modeMismatch_settled (lvl : level) (m : Z) :
  modeMismatch lvl
    (if modeMismatch lvl m then (if m =? 1 then 0 else 1) else m) = false.
Proof.
  unfold modeMismatch.
  destruct lvl; simpl;
    destruct (Z.eqb_spec m 0) as [->|H0]; simpl; try reflexivity;
    destruct (Z.eqb_spec m 1) as [->|H1]; simpl; try reflexivity;
    rewrite ?andb_false_r; try reflexivity.
  - destruct (Z.eqb_spec m 0); [contradiction | reflexivity].
  - destruct (Z.eqb_spec m 1); [contradiction | reflexivity].
Qed.

Lemma after_polls_S (P : Platform) (k : nat) (s : State) :
  after_polls P (S k) s = snd (readSwitches P (after_polls P k s)).
Proof. reflexivity. Qed.

Lemma after_polls_reads (P : Platform) (k : nat) (s : State) :
  reads (after_polls P k s) = (10 * k + reads s)%nat.
Proof.
  induction k as [|k IH]; [reflexivity|].
  rewrite after_polls_S, readSwitches_reads, IH. lia.
Qed.

(** While the mode line keeps one level from call [j] to call [k] of a
    run, the mode agrees with that level when call [k] is made. *)
Lemma after_polls_settled (P : Platform) (lvl : level) (j k : nat) (s : State) :
  (forall t : nat,
     (reads s + 10 * j <= t < reads s + 10 * (k + 1))%nat ->
     digitalRead P t MODE_PIN = lvl) ->
  (j < k)%nat ->
  modeMismatch lvl (mode (after_polls P k s)) = false.
Proof.
  intros Hline Hjk.
  destruct k as [|k]; [lia|].
  rewrite after_polls_S, readSwitches_mode.
  rewrite (Hline (9 + reads (after_polls P k s))%nat)
    by (rewrite after_polls_reads; lia).
  apply modeMismatch_settled.
Qed.

(** C4. Mode toggling is edge-triggered: in a run of [readSwitches] calls,
    if call [j] reported a change and the mode-select line keeps one level
    from call [j] up to and including a later call [k], then call [k]
    reports no change and leaves the mode as it found it.  Nothing is
    asked of the line before call [j] or after call [k]. *)
Theorem readSwitches_edge_triggered
  (P : Platform) (s : State) (lvl : level) (j k : nat) :
  (forall t : nat,
     (reads s + 10 * j <= t < reads s + 10 * (k + 1))%nat ->
     digitalRead P t MODE_PIN = lvl) ->
  (j < k)%nat ->
  fst (readSwitches P (after_polls P j s)) = true ->
  fst (readSwitches P (after_polls P k s)) = false
  /\ mode (snd (readSwitches P (after_polls P k s))) = mode (after_polls P k s).
Proof.
  intros Hline Hjk _.
  assert (Hquiet :
    modeMismatch (digitalRead P (9 + reads (after_polls P k s)) MODE_PIN)
      (mode (after_polls P k s)) = false).
  { rewrite (Hline (9 + reads (after_polls P k s))%nat)
      by (rewrite after_polls_reads; lia).
    apply (after_polls_settled P lvl j k s Hline Hjk). }
  split.
  - rewrite readSwitches_fst. exact Hquiet.
  - rewrite readSwitches_mode, Hquiet. reflexivity.
Qed.

(** The mode line of the bench goes HIGH after 35 reads: call 0 reports the
    change to rainbow, calls 1 and 2 (reads 10 to 29) see the same LOW line
    and report nothing; the line changes only afterwards. *)
Lemma readSwitches_edge_triggered_witness :
  fst (readSwitches (toggling_bench 35)
         (after_polls (toggling_bench 35) 0 initial)) = true
  /\ digitalRead (toggling_bench 35) 39 MODE_PIN = HIGH
  /\ fst (readSwitches (toggling_bench 35)
            (after_polls (toggling_bench 35) 2 initial)) = false
  /\ mode (snd (readSwitches (toggling_bench 35)
                  (after_polls (toggling_bench 35) 2 initial)))
     = mode (after_polls (toggling_bench 35) 2 initial).
Proof.
  split; [reflexivity|]. split; [reflexivity|].
  apply (readSwitches_edge_triggered (toggling_bench 35) initial LOW 0 2).
  - intros t Ht. simpl in Ht. unfold toggling_bench. simpl.
    destruct (Nat.ltb_spec t 35) as [_|Hge]; [reflexivity | lia].
  - lia.
  - reflexivity.
Defined.

(** ** flicker: the reset of one candle *)

(** With equal bounds [random] returns the lower one and draws nothing. *)
Lemma random_delay (P : Platform) (s : State) :
  random P flickerDelayLow flickerDelayHigh s = (flickerDelayLow, s).
Proof. reflexivity. Qed.

Lemma random_flicker (P : Platform) (s : State) :
  random P flickerFlickerLow flickerFlickerHigh s =
  (Z.rem (Z.of_N (rawRandom P (draws s))) flickerFlickerHigh,
   with_draws (S (draws s)) s).
Proof.
  unfold random, random1. simpl. rewrite Z.add_0_r. reflexivity.
Qed.

Lemma random_flicker_range (P : Platform) (s : State) :
  0 <= fst (random P flickerFlickerLow flickerFlickerHigh s)
    < flickerFlickerHigh.
Proof.
  rewrite random_flicker. simpl.
  apply Z.rem_bound_pos; [apply N2Z.is_nonneg | reflexivity].
Qed.

(** For a flicker value below 40 only the blue clamp can matter. *)
Lemma flicker_colours_eq (f : candleFlicker.t) :
  0 <= candleFlicker.flicker f < flickerFlickerHigh ->
  flicker_colours f =
  candleFlicker.mk
    (flickerStartRed - candleFlicker.flicker f)
    (flickerStartGreen - candleFlicker.flicker f)
    (clamp0 (flickerStartBlue - candleFlicker.flicker f))
    (candleFlicker.delay f) (candleFlicker.flicker f) (candleFlicker.time f).
Proof.
  destruct f as [r g b d m t]. simpl.
  unfold flickerFlickerHigh, flickerStartRed, flickerStartGreen,
    flickerStartBlue.
  intros Hm.
  unfold flicker_colours, candleFlicker.with_red, candleFlicker.with_green,
    candleFlicker.with_blue. simpl.
  unfold flickerStartRed, flickerStartGreen, flickerStartBlue.
  rewrite !int16_small by lia.
  unfold clamp0 at 1 2.
  destruct (Z.ltb_spec (255 - m) 0); [lia|].
  destruct (Z.ltb_spec (96 - m) 0); [lia|].
  reflexivity.
Qed.

Lemma flicker_reset_flickers (P : Platform) (i : nat) (s : State) :
  flickers (flicker_reset P i s) =
  <[i := flicker_colours
           (candleFlicker.with_flicker
              (int16 (fst (random P flickerFlickerLow flickerFlickerHigh s)))
              (candleFlicker.with_delay (int16 flickerDelayLow)
                 (flickers s !!! i)))]> (flickers s).
Proof.
  unfold flicker_reset. rewrite random_delay, !random_flicker.
  cbn [fst snd flickers with_flickers with_draws draws].
  destruct (Nat.lt_ge_cases i (length (flickers s))) as [Hlt|Hge].
  - rewrite list_lookup_total_insert_eq by exact Hlt.
    rewrite list_insert_insert_eq. reflexivity.
  - rewrite !list_insert_ge by (rewrite ?length_insert; exact Hge).
    reflexivity.
Qed.

(** The record of candle [i] right after its reset, in terms of the
    magnitude [m] just drawn. *)
Lemma flicker_reset_at (P : Platform) (i : nat) (s : State) :
  (i < length (flickers s))%nat ->
  let m := fst (random P flickerFlickerLow flickerFlickerHigh s) in
  flickers (flicker_reset P i s) !!! i =
  candleFlicker.mk
    (flickerStartRed - m) (flickerStartGreen - m)
    (clamp0 (flickerStartBlue - m))
    flickerDelayLow m (candleFlicker.time (flickers s !!! i)).
Proof.
  intros Hi m.
  pose proof (random_flicker_range P s) as Hm. fold m in Hm.
  rewrite flicker_reset_flickers.
  rewrite list_lookup_total_insert_eq by exact Hi.
  fold m.
  assert (Hm16 : int16 m = m)
    by (apply int16_small; unfold flickerFlickerHigh in Hm; lia).
  rewrite Hm16.
  rewrite flicker_colours_eq by exact Hm.
  reflexivity.
Qed.

(** The clamps keep every channel at or above zero for any flicker value. *)
Lemma flicker_colours_nonneg (f : candleFlicker.t) :
  0 <= candleFlicker.red (flicker_colours f)
  /\ 0 <= candleFlicker.green (flicker_colours f)
  /\ 0 <= candleFlicker.blue (flicker_colours f).
Proof.
  unfold flicker_colours. simpl.
  rewrite !clamp0_max. lia.
Qed.

(** C7. After a colour reset each of the LED's red, green and blue values
    is at least 0, also when the flicker magnitude exceeds the base value of
    a channel. *)
Theorem flicker_reset_nonneg (P : Platform) (i : nat) (s : State) :
  (i < length (flickers s))%nat ->
  let f := flickers (flicker_reset P i s) !!! i in
  0 <= candleFlicker.red f
  /\ 0 <= candleFlicker.green f
  /\ 0 <= candleFlicker.blue f.
Proof.
  intros Hi f. subst f.
  rewrite flicker_reset_flickers.
  rewrite list_lookup_total_insert_eq by exact Hi.
  apply flicker_colours_nonneg.
Qed.

(** With a raw draw of 39 the magnitude (39) exceeds the blue base (12). *)
Lemma flicker_reset_nonneg_witness :
  (0 < length (flickers initial))%nat
  /\ flickerStartBlue
       < candleFlicker.flicker
           (flickers (flicker_reset (bench HIGH 2 39) 0 initial) !!! 0%nat)
  /\ (let f := flickers (flicker_reset (bench HIGH 2 39) 0 initial) !!! 0%nat in
      0 <= candleFlicker.red f
      /\ 0 <= candleFlicker.green f
      /\ 0 <= candleFlicker.blue f).
Proof.
  split; [simpl; lia|].
  split; [reflexivity|].
  apply (flicker_reset_nonneg (bench HIGH 2 39) 0 initial).
  simpl; lia.
Defined.

(** C3, as the code has it. On a reset the countdown drawn is exactly 50,
    because both bounds of its range are 50, and the flicker magnitude drawn
    lies in [0,40). *)
Theorem flicker_reset_drawn (P : Platform) (i : nat) (s : State) :
  (i < length (flickers s))%nat ->
  let f := flickers (flicker_reset P i s) !!! i in
  fst (random P flickerDelayLow flickerDelayHigh s) = 50
  /\ candleFlicker.delay f = 50
  /\ 0 <= candleFlicker.flicker f < 40.
Proof.
  intros Hi f. subst f.
  rewrite (flicker_reset_at P i s Hi). simpl.
  split; [reflexivity|].
  split; [reflexivity|].
  apply random_flicker_range.
Qed.

Lemma flicker_reset_drawn_witness :
  (0 < length (flickers initial))%nat
  /\ (let f := flickers (flicker_reset (bench HIGH 2 7) 0 initial) !!! 0%nat in
      fst (random (bench HIGH 2 7) flickerDelayLow flickerDelayHigh initial) = 50
      /\ candleFlicker.delay f = 50
      /\ 0 <= candleFlicker.flicker f < 40).
Proof.
  split; [simpl; lia|].
  apply (flicker_reset_drawn (bench HIGH 2 7) 0 initial).
  simpl; lia.
Defined.

(** C3, as stated, fails: LED 0 of the initial state has its countdown at
    zero, and the countdown its reset draws is 50, outside [0,50). *)
Lemma flicker_reset_delay_outside_range :
  candleFlicker.delay (flickers initial !!! 0%nat) <= 0
  /\ ~ (0 <= candleFlicker.delay
              (flickers (flicker_reset (bench HIGH 2 0) 0 initial) !!! 0%nat)
          < 50).
Proof.
  split.
  - simpl. lia.
  - vm_compute. intros [_ H]. discriminate H.
Qed.

(** C10. On a reset the magnitude drawn is below 40, so the red and the
    green value are not negative before their clamps, which therefore never
    fire: red and green are the base less the magnitude.  Blue is clamped,
    and ends at 0 exactly when the magnitude reaches its base of 12. *)
Theorem flicker_reset_clamps (P : Platform) (i : nat) (s : State) :
  (i < length (flickers s))%nat ->
  let f := flickers (flicker_reset P i s) !!! i in
  let m := candleFlicker.flicker f in
  0 <= m < flickerFlickerHigh
  /\ (int16 (flickerStartRed - m) <? 0) = false
  /\ (int16 (flickerStartGreen - m) <? 0) = false
  /\ candleFlicker.red f = flickerStartRed - m
  /\ candleFlicker.green f = flickerStartGreen - m
  /\ candleFlicker.blue f = Z.max 0 (flickerStartBlue - m)
  /\ (candleFlicker.blue f = 0 <-> flickerStartBlue <= m).
Proof.
  intros Hi f m. subst m f.
  rewrite (flicker_reset_at P i s Hi).
  cbn [candleFlicker.red candleFlicker.green candleFlicker.blue
       candleFlicker.flicker].
  pose proof (random_flicker_range P s) as Hm.
  set (m := fst (random P flickerFlickerLow flickerFlickerHigh s)) in *.
  unfold flickerFlickerHigh, flickerStartRed, flickerStartGreen,
    flickerStartBlue in *.
  rewrite !int16_small by lia.
  rewrite clamp0_max.
  repeat split; try lia; apply Z.ltb_ge; lia.
Qed.

(** With a raw draw of 39 the blue clamp fires; red and green stay clear. *)
Lemma flicker_reset_clamps_witness :
  (0 < length (flickers initial))%nat
  /\ flickerStartBlue - 39 < 0
  /\ (let f := flickers (flicker_reset (bench HIGH 2 39) 0 initial) !!! 0%nat in
      let m := candleFlicker.flicker f in
      0 <= m < flickerFlickerHigh
      /\ (int16 (flickerStartRed - m) <? 0) = false
      /\ (int16 (flickerStartGreen - m) <? 0) = false
      /\ candleFlicker.red f = flickerStartRed - m
      /\ candleFlicker.green f = flickerStartGreen - m
      /\ candleFlicker.blue f = Z.max 0 (flickerStartBlue - m)
      /\ (candleFlicker.blue f = 0 <-> flickerStartBlue <= m)).
Proof.
  split; [simpl; lia|].
  split; [reflexivity|].
  apply (flicker_reset_clamps (bench HIGH 2 39) 0 initial).
  simpl; lia.
Defined.

(** ** flicker: one LED of the loop *)

Lemma flicker_reset_eq (P : Platform) (i : nat) (s : State) :
  flicker_reset P i s =
  with_flickers (flickers (flicker_reset P i s)) (with_draws (S (draws s)) s).
Proof.
  unfold flicker_reset. rewrite random_delay, !random_flicker.
  reflexivity.
Qed.

Lemma flicker_reset_candles (P : Platform) (i : nat) (s : State) :
  candles (flicker_reset P i s) = candles s.
Proof. rewrite flicker_reset_eq. reflexivity. Qed.

Lemma flicker_reset_pixels (P : Platform) (i : nat) (s : State) :
  pixels (flicker_reset P i s) = pixels s.
Proof. rewrite flicker_reset_eq. reflexivity. Qed.

Lemma flicker_reset_length (P : Platform) (i : nat) (s : State) :
  length (flickers (flicker_reset P i s)) = length (flickers s).
Proof. rewrite flicker_reset_flickers. apply length_insert. Qed.

Lemma flicker_reset_other (P : Platform) (i j : nat) (s : State) :
  i <> j -> flickers (flicker_reset P i s) !!! j = flickers s !!! j.
Proof.
  intros Hne. rewrite flicker_reset_flickers.
  apply list_lookup_total_insert_ne. exact Hne.
Qed.

(** The state in which LED [i] is drawn: after its reset, if one is due. *)
Lemma flicker_led_eq (P : Platform) (i : nat) (s : State) :
  let s1 :=
    if candleFlicker.delay (flickers s !!! i) <=? 0
    then flicker_reset P i s else s in
  let f := flickers s1 !!! i in
  flicker_led P i s =
  with_flickers
    (<[i := candleFlicker.with_delay (int16 (candleFlicker.delay f - 1)) f]>
       (flickers s1))
    (with_pixels
       (<[i := if candleLed.state (candles s1 !!! i)
               then (uint8 (candleFlicker.green f), uint8 (candleFlicker.red f),
                     uint8 (candleFlicker.blue f))
               else (0, 0, 0)]> (pixels s1)) s1).
Proof.
  intros s1 f. unfold flicker_led. fold s1. fold f.
  destruct (candleLed.state (candles s1 !!! i)); reflexivity.
Qed.

Lemma flicker_led_candles (P : Platform) (i : nat) (s : State) :
  candles (flicker_led P i s) = candles s.
Proof.
  rewrite flicker_led_eq. cbv zeta. simpl.
  destruct (_ <=? 0); [apply flicker_reset_candles | reflexivity].
Qed.

Lemma flicker_led_lengths (P : Platform) (i : nat) (s : State) :
  length (flickers (flicker_led P i s)) = length (flickers s)
  /\ length (pixels (flicker_led P i s)) = length (pixels s).
Proof.
  rewrite flicker_led_eq. cbv zeta. simpl.
  rewrite !length_insert.
  destruct (_ <=? 0).
  - rewrite flicker_reset_length, flicker_reset_pixels. split; reflexivity.
  - split; reflexivity.
Qed.

Lemma flicker_led_other (P : Platform) (i j : nat) (s : State) :
  i <> j ->
  flickers (flicker_led P i s) !!! j = flickers s !!! j
  /\ pixels (flicker_led P i s) !!! j = pixels s !!! j.
Proof.
  intros Hne. rewrite flicker_led_eq. cbv zeta. simpl.
  rewrite !list_lookup_total_insert_ne by exact Hne.
  destruct (_ <=? 0).
  - rewrite flicker_reset_other by exact Hne.
    rewrite flicker_reset_pixels. split; reflexivity.
  - split; reflexivity.
Qed.

(** What the turn of LED [i] leaves in its record and in its pixel. *)
Lemma flicker_led_at (P : Platform) (i : nat) (s : State) :
  (i < length (flickers s))%nat ->
  (i < length (pixels s))%nat ->
  flicker_ok (flickers s !!! i) ->
  let c := candles s !!! i in
  let f0 := flickers s !!! i in
  let f' := flickers (flicker_led P i s) !!! i in
  (candleFlicker.delay f0 <= 0 ->
     0 <= candleFlicker.flicker f' < flickerFlickerHigh
     /\ candleFlicker.red f' = Z.max 0 (flickerStartRed - candleFlicker.flicker f')
     /\ candleFlicker.green f'
        = Z.max 0 (flickerStartGreen - candleFlicker.flicker f')
     /\ candleFlicker.blue f'
        = Z.max 0 (flickerStartBlue - candleFlicker.flicker f'))
  /\ (0 < candleFlicker.delay f0 ->
        candleFlicker.red f' = candleFlicker.red f0
        /\ candleFlicker.green f' = candleFlicker.green f0
        /\ candleFlicker.blue f' = candleFlicker.blue f0
        /\ candleFlicker.flicker f' = candleFlicker.flicker f0)
  /\ candleFlicker.delay f'
     = (if candleFlicker.delay f0 <=? 0 then flickerDelayLow
        else candleFlicker.delay f0) - 1
  /\ pixels (flicker_led P i s) !!! i
     = (if candleLed.state c
        then (candleFlicker.green f', candleFlicker.red f',
              candleFlicker.blue f')
        else (0, 0, 0)).
Proof.
  intros Hif Hip (Hr & Hg & Hb & Hd) c f0 f'. subst c f0 f'.
  rewrite flicker_led_eq. cbv zeta.
  cbn [flickers pixels with_flickers with_pixels].
  destruct (Z.leb_spec (candleFlicker.delay (flickers s !!! i)) 0) as [Hle|Hgt].
  - rewrite list_lookup_total_insert_eq
      by (rewrite flicker_reset_length; exact Hif).
    rewrite list_lookup_total_insert_eq
      by (rewrite flicker_reset_pixels; exact Hip).
    rewrite flicker_reset_candles.
    rewrite (flicker_reset_at P i s Hif).
    pose proof (random_flicker_range P s) as Hm.
    set (m := fst (random P flickerFlickerLow flickerFlickerHigh s)) in *.
    cbn [candleFlicker.red candleFlicker.green candleFlicker.blue
         candleFlicker.flicker candleFlicker.delay candleFlicker.with_delay].
    unfold flickerFlickerHigh, flickerStartRed, flickerStartGreen,
      flickerStartBlue, flickerDelayLow in *.
    rewrite clamp0_max.
    rewrite !uint8_small by lia.
    rewrite int16_small by lia.
    repeat split; try lia.
  - rewrite list_lookup_total_insert_eq by exact Hif.
    rewrite list_lookup_total_insert_eq by exact Hip.
    cbn [candleFlicker.red candleFlicker.green candleFlicker.blue
         candleFlicker.flicker candleFlicker.delay candleFlicker.with_delay].
    rewrite !uint8_small by lia.
    rewrite int16_small by lia.
    repeat split; try lia.
Qed.

(** ** flicker: the loop over the LEDs *)

Lemma flicker_loop_candles (P : Platform) (n : nat) (s : State) :
  candles (for_upto n (flicker_led P) s) = candles s.
Proof.
  induction n as [|n IH]; [reflexivity|].
  rewrite for_upto_S, flicker_led_candles. exact IH.
Qed.

Lemma flicker_loop_lengths (P : Platform) (n : nat) (s : State) :
  length (flickers (for_upto n (flicker_led P) s)) = length (flickers s)
  /\ length (pixels (for_upto n (flicker_led P) s)) = length (pixels s).
Proof.
  induction n as [|n [IHf IHp]]; [split; reflexivity|].
  rewrite for_upto_S.
  destruct (flicker_led_lengths P n (for_upto n (flicker_led P) s)) as [Hf Hp].
  split; congruence.
Qed.

(** An LED the loop has not reached yet is as it was. *)
Lemma flicker_loop_untouched (P : Platform) (n j : nat) (s : State) :
  (n <= j)%nat ->
  flickers (for_upto n (flicker_led P) s) !!! j = flickers s !!! j
  /\ pixels (for_upto n (flicker_led P) s) !!! j = pixels s !!! j.
Proof.
  induction n as [|n IH]; intros Hj; [split; reflexivity|].
  rewrite for_upto_S.
  destruct (flicker_led_other P n j (for_upto n (flicker_led P) s)) as [Hf Hp];
    [lia|].
  destruct IH as [IHf IHp]; [lia|].
  split; congruence.
Qed.

(** An LED the loop has passed keeps what its turn left. *)
Lemma flicker_loop_settled (P : Platform) (n i : nat) (s : State) :
  (i < n)%nat ->
  flickers (for_upto n (flicker_led P) s) !!! i
  = flickers (for_upto (S i) (flicker_led P) s) !!! i
  /\ pixels (for_upto n (flicker_led P) s) !!! i
     = pixels (for_upto (S i) (flicker_led P) s) !!! i.
Proof.
  induction n as [|n IH]; intros Hi; [lia|].
  destruct (decide (i = n)) as [->|Hne]; [split; reflexivity|].
  rewrite (for_upto_S n).
  destruct (flicker_led_other P n i (for_upto n (flicker_led P) s)) as [Hf Hp];
    [congruence|].
  destruct IH as [IHf IHp]; [lia|].
  split; congruence.
Qed.

(** The turn of LED [i] within the loop: it starts from a state [si] in
    which the LED is as the loop found it, and what it leaves stays. *)
Lemma flicker_loop_turn (P : Platform) (s : State) (i : nat) :
  (i < LED_COUNT)%nat ->
  let si := for_upto i (flicker_led P) s in
  let s' := for_upto LED_COUNT (flicker_led P) s in
  flickers s' !!! i = flickers (flicker_led P i si) !!! i
  /\ pixels s' !!! i = pixels (flicker_led P i si) !!! i
  /\ flickers si !!! i = flickers s !!! i
  /\ candles si = candles s
  /\ length (flickers si) = length (flickers s)
  /\ length (pixels si) = length (pixels s).
Proof.
  intros Hi si s'. subst si s'.
  destruct (flicker_loop_settled P LED_COUNT i s Hi) as [-> ->].
  rewrite for_upto_S.
  destruct (flicker_loop_untouched P i i s (Nat.le_refl i)) as [Hf _].
  destruct (flicker_loop_lengths P i s) as [Hlf Hlp].
  repeat split; try assumption.
  apply flicker_loop_candles.
Qed.

(** The loop over the LEDs from any state, also one whose candles are
    off: an LED whose countdown had expired gets channels max(0, base -
    magnitude); an LED whose candle is on is pushed as (green, red, blue),
    one whose candle is off as zero; every countdown ends one lower. *)
Lemma flicker_loop_led (P : Platform) (s : State) (i : nat) :
  (i < LED_COUNT)%nat ->
  length (flickers s) = LED_COUNT ->
  length (pixels s) = LED_COUNT ->
  flicker_ok (flickers s !!! i) ->
  let s' := for_upto LED_COUNT (flicker_led P) s in
  let c := candles s !!! i in
  let f0 := flickers s !!! i in
  let f' := flickers s' !!! i in
  (candleFlicker.delay f0 <= 0 ->
     0 <= candleFlicker.flicker f' < 40
     /\ candleFlicker.red f' = Z.max 0 (255 - candleFlicker.flicker f')
     /\ candleFlicker.green f' = Z.max 0 (96 - candleFlicker.flicker f')
     /\ candleFlicker.blue f' = Z.max 0 (12 - candleFlicker.flicker f'))
  /\ (0 < candleFlicker.delay f0 ->
        candleFlicker.red f' = candleFlicker.red f0
        /\ candleFlicker.green f' = candleFlicker.green f0
        /\ candleFlicker.blue f' = candleFlicker.blue f0
        /\ candleFlicker.flicker f' = candleFlicker.flicker f0)
  /\ candleFlicker.delay f'
     = (if candleFlicker.delay f0 <=? 0 then flickerDelayLow
        else candleFlicker.delay f0) - 1
  /\ pixels s' !!! i
     = (if candleLed.state c
        then (candleFlicker.green f', candleFlicker.red f',
              candleFlicker.blue f')
        else (0, 0, 0)).
Proof.
  intros Hi Hlf Hlp Hok s' c f0 f'. subst s' c f0 f'.
  destruct (flicker_loop_turn P s i Hi) as (-> & -> & Hf & Hc & Hlf' & Hlp').
  rewrite <- Hf, <- Hc.
  apply flicker_led_at.
  - rewrite Hlf', Hlf. exact Hi.
  - rewrite Hlp', Hlp. exact Hi.
  - rewrite Hf. exact Hok.
Qed.

(** LED 0 of the initial state: its candle is off and its countdown at
    zero, so it is reset and pushed as zero. *)
Lemma flicker_loop_led_witness :
  candleLed.state (candles initial !!! 0%nat) = false
  /\ (let s' := for_upto LED_COUNT (flicker_led (bench HIGH 2 39)) initial in
      let c := candles initial !!! 0%nat in
      let f0 := flickers initial !!! 0%nat in
      let f' := flickers s' !!! 0%nat in
      (candleFlicker.delay f0 <= 0 ->
         0 <= candleFlicker.flicker f' < 40
         /\ candleFlicker.red f' = Z.max 0 (255 - candleFlicker.flicker f')
         /\ candleFlicker.green f' = Z.max 0 (96 - candleFlicker.flicker f')
         /\ candleFlicker.blue f' = Z.max 0 (12 - candleFlicker.flicker f'))
      /\ (0 < candleFlicker.delay f0 ->
            candleFlicker.red f' = candleFlicker.red f0
            /\ candleFlicker.green f' = candleFlicker.green f0
            /\ candleFlicker.blue f' = candleFlicker.blue f0
            /\ candleFlicker.flicker f' = candleFlicker.flicker f0)
      /\ candleFlicker.delay f'
         = (if candleFlicker.delay f0 <=? 0 then flickerDelayLow
            else candleFlicker.delay f0) - 1
      /\ pixels s' !!! 0%nat
         = (if candleLed.state c
            then (candleFlicker.green f', candleFlicker.red f',
                  candleFlicker.blue f')
            else (0, 0, 0))).
Proof.
  split; [reflexivity|].
  apply (flicker_loop_led (bench HIGH 2 39) initial 0).
  - unfold LED_COUNT; lia.
  - reflexivity.
  - reflexivity.
  - repeat split; vm_compute; discriminate.
Defined.

(** ** rainbow: one frame *)

Lemma rainbow_pixel_eq (P : Platform) (firstPixelHue : Z) (i : nat) (s : State) :
  rainbow_pixel P firstPixelHue i s =
  with_pixels
    (<[i := if candleLed.state (candles s !!! i)
            then rainbow_colour P (numPixels s) firstPixelHue i
            else (0, 0, 0)]> (pixels s)) s.
Proof.
  unfold rainbow_pixel.
  destruct (candleLed.state (candles s !!! i)); reflexivity.
Qed.

(** The loop over the pixels, on a strip of [m] pixels whose first [n]
    candles are on. *)
Lemma rainbow_loop_eq (P : Platform) (firstPixelHue : Z) (m n : nat) (s : State) :
  numPixels s = m ->
  (n <= m)%nat ->
  (forall i : nat, (i < n)%nat -> candleLed.state (candles s !!! i) = true) ->
  for_upto n (rainbow_pixel P firstPixelHue) s =
  with_pixels
    (map (rainbow_colour P m firstPixelHue) (seq 0 n) ++ drop n (pixels s)) s.
Proof.
  intros Hm. induction n as [|n IH]; intros Hn Hon.
  - rewrite for_upto_0. simpl. rewrite drop_0. destruct s; reflexivity.
  - rewrite for_upto_S, IH by (try lia; intros; apply Hon; lia).
    rewrite rainbow_pixel_eq.
    cbn [candles pixels with_pixels numPixels].
    rewrite Hon by lia.
    unfold numPixels in *. cbn [pixels with_pixels].
    rewrite length_app, length_map, length_seq, length_drop.
    replace (n + (length (pixels s) - n))%nat with m by lia.
    unfold with_pixels. cbn [candles mode flickerMillisecondsCurrent
      flickerMillisecondsDifference flickerMillisecondsLast flickers pixels
      reads ticks draws out].
    f_equal.
    destruct (lookup_lt_is_Some_2 (pixels s) n) as [x Hx]; [lia|].
    rewrite (drop_S _ _ _ Hx).
    rewrite insert_app_r_alt by (rewrite length_map, length_seq; lia).
    rewrite length_map, length_seq, Nat.sub_diag.
    rewrite seq_S, map_app, <- app_assoc. reflexivity.
Qed.

Lemma rainbow_frame_eq (P : Platform) (wait firstPixelHue : Z) (s : State) :
  numPixels s = LED_COUNT ->
  (forall i : nat, (i < LED_COUNT)%nat -> candleLed.state (candles s !!! i) = true) ->
  rainbow_frame P wait firstPixelHue s =
  emit (Delay (uint32 wait))
    (emit (Show (rainbow_pixels P firstPixelHue))
       (with_pixels (rainbow_pixels P firstPixelHue) s)).
Proof.
  intros Hm Hon. unfold rainbow_frame.
  rewrite Hm.
  rewrite (rainbow_loop_eq P firstPixelHue LED_COUNT LED_COUNT s Hm)
    by (try lia; exact Hon).
  rewrite drop_ge by (unfold numPixels in Hm; lia).
  rewrite app_nil_r. reflexivity.
Qed.

(** ** rainbow: the sweep *)

Lemma rainbow_from_step (P : Platform) (wait firstPixelHue : Z) (s : State) :
  rainbow_from P wait firstPixelHue s =
  if Z_lt_dec firstPixelHue rainbow_limit
  then (if fst (readSwitches P s) then snd (readSwitches P s)
        else rainbow_from P wait (firstPixelHue + 256)
               (rainbow_frame P wait firstPixelHue (snd (readSwitches P s))))
  else s.
Proof.
  rewrite rainbow_from_equation_1.
  destruct (Z_lt_dec firstPixelHue rainbow_limit) as [Hlt|Hge].
  - rewrite rainbow_from_clause_1_equation_1. reflexivity.
  - rewrite rainbow_from_clause_1_equation_2. reflexivity.
Qed.

Lemma sweep_events_S (P : Platform) (wait : Z) (k : nat) :
  sweep_events P wait (S k) = frame_events P wait k ++ sweep_events P wait k.
Proof.
  unfold sweep_events. rewrite seq_S, rev_app_distr. reflexivity.
Qed.

Lemma shows_app (l1 l2 : list Event) :
  shows (l1 ++ l2) = (shows l1 + shows l2)%nat.
Proof.
  induction l1 as [|[fr|ms] l1 IH]; simpl; rewrite ?IH; reflexivity.
Qed.

Lemma shows_sweep_events (P : Platform) (wait : Z) (k : nat) :
  shows (sweep_events P wait k) = k.
Proof.
  induction k as [|k IH]; [reflexivity|].
  rewrite sweep_events_S, shows_app, IH. reflexivity.
Qed.

(** What the frames of an unaborted sweep leave behind: the strip and the
    candle array keep their nine entries, and the events are those of the
    frames drawn so far. *)
Lemma sweep_state_inv (P : Platform) (wait : Z) (k : nat) (s : State) :
  length (candles s) = LED_COUNT ->
  numPixels s = LED_COUNT ->
  length (candles (sweep_state P wait k s)) = LED_COUNT
  /\ numPixels (sweep_state P wait k s) = LED_COUNT
  /\ out (sweep_state P wait k s) = sweep_events P wait k ++ out s
  /\ reads (sweep_state P wait k s) = (10 * k + reads s)%nat.
Proof.
  intros Hc Hp. induction k as [|k (IHc & IHp & IHo & IHr)].
  - repeat split; try assumption; simpl; lia.
  - cbn [sweep_state].
    set (st := sweep_state P wait k s) in *.
    rewrite rainbow_frame_eq.
    + cbn [candles pixels out reads emit with_pixels numPixels].
      rewrite readSwitches_candles, switched_length, readSwitches_out,
        readSwitches_reads, IHo, IHr, sweep_events_S.
      repeat split; try assumption; try reflexivity; lia.
    + unfold numPixels. rewrite readSwitches_pixels. exact IHp.
    + intros i Hi. apply readSwitches_state; [exact Hi | rewrite IHc; exact Hi].
Qed.

Lemma rainbow_frame_mode (P : Platform) (wait firstPixelHue : Z) (s : State) :
  mode (rainbow_frame P wait firstPixelHue s) = mode s.
Proof.
  unfold rainbow_frame. cbn [delay show emit mode].
  generalize (numPixels s) at 1. intros n.
  induction n as [|n IH]; [reflexivity|].
  rewrite for_upto_S, rainbow_pixel_eq. exact IH.
Qed.

Lemma sweep_state_mode (P : Platform) (wait : Z) (k : nat) (s : State) :
  (forall j : nat, (j < k)%nat ->
     fst (readSwitches P (sweep_state P wait j s)) = false) ->
  mode (sweep_state P wait k s) = mode s.
Proof.
  induction k as [|k IH]; intros Hquiet; [reflexivity|].
  cbn [sweep_state].
  rewrite rainbow_frame_mode, readSwitches_mode.
  rewrite <- readSwitches_fst, (Hquiet k) by lia.
  apply IH. intros j Hj. apply Hquiet. lia.
Qed.

(** As long as no poll reports a change, the sweep reaches its frame [k]
    in the state [sweep_state] describes. *)
Lemma rainbow_reaches (P : Platform) (wait : Z) (k : nat) (s : State) :
  (k <= 1280)%nat ->
  (forall j : nat, (j < k)%nat ->
     fst (readSwitches P (sweep_state P wait j s)) = false) ->
  rainbow P wait s =
  rainbow_from P wait (256 * Z.of_nat k) (sweep_state P wait k s).
Proof.
  induction k as [|k IH]; intros Hk Hquiet; [reflexivity|].
  rewrite IH by (try lia; intros j Hj; apply Hquiet; lia).
  rewrite rainbow_from_step.
  destruct (Z_lt_dec (256 * Z.of_nat k) rainbow_limit) as [_|Hge];
    [|unfold rainbow_limit in Hge; lia].
  rewrite (Hquiet k) by lia.
  cbn [sweep_state].
  replace (256 * Z.of_nat (S k)) with (256 * Z.of_nat k + 256) by lia.
  reflexivity.
Qed.

Lemma rainbow_frame_out (P : Platform) (wait firstPixelHue : Z) (s : State) :
  shows (out (rainbow_frame P wait firstPixelHue s)) = S (shows (out s)).
Proof.
  unfold rainbow_frame. cbn [delay show emit out shows]. f_equal.
  generalize (numPixels s) at 1. intros n.
  induction n as [|n IH]; [reflexivity|].
  rewrite for_upto_S, rainbow_pixel_eq. exact IH.
Qed.

Lemma sweep_state_shows (P : Platform) (wait : Z) (k : nat) (s : State) :
  shows (out (sweep_state P wait k s)) = (k + shows (out s))%nat.
Proof.
  induction k as [|k IH]; [reflexivity|].
  cbn [sweep_state].
  rewrite rainbow_frame_out, readSwitches_out, IH. reflexivity.
Qed.

(** On a bench whose lines all read LOW, a sweep started in rainbow mode is
    never told of a mode change. *)
Lemma bench_low_quiet (now : Z) (raw : N) (wait : Z) (k : nat) :
  fst (readSwitches (bench LOW now raw)
         (sweep_state (bench LOW now raw) wait k (with_mode 1 initial)))
  = false.
Proof.
  induction k as [k IH] using lt_wf_ind.
  rewrite readSwitches_fst.
  rewrite sweep_state_mode by exact IH.
  reflexivity.
Qed.

(** C5. A sweep in which [readSwitches] never reports a mode change draws
    and flushes exactly 1280 frames, for the base hues 0, 256, ... up to
    5*65536 exclusive, and then returns with the mode unchanged. *)
Theorem rainbow_full_sweep (P : Platform) (wait : Z) (s : State) :
  length (candles s) = LED_COUNT ->
  numPixels s = LED_COUNT ->
  (forall k : nat, (k < 1280)%nat ->
     fst (readSwitches P (sweep_state P wait k s)) = false) ->
  rainbow P wait s = sweep_state P wait 1280 s
  /\ out (rainbow P wait s) = sweep_events P wait 1280 ++ out s
  /\ shows (out (rainbow P wait s)) = (1280 + shows (out s))%nat
  /\ 256 * Z.of_nat 1280 = rainbow_limit
  /\ mode (rainbow P wait s) = mode s.
Proof.
  intros Hc Hp Hquiet.
  assert (Hrun : rainbow P wait s = sweep_state P wait 1280 s).
  { rewrite (rainbow_reaches P wait 1280 s) by (try lia; exact Hquiet).
    rewrite rainbow_from_step.
    destruct (Z_lt_dec (256 * Z.of_nat 1280) rainbow_limit) as [Hlt|_];
      [unfold rainbow_limit in Hlt; lia | reflexivity]. }
  rewrite Hrun.
  destruct (sweep_state_inv P wait 1280 s Hc Hp) as (_ & _ & Ho & _).
  repeat split.
  - exact Ho.
  - apply sweep_state_shows.
  - apply sweep_state_mode. exact Hquiet.
Qed.

Lemma rainbow_full_sweep_witness :
  let P := bench LOW 2 0 in
  let s := with_mode 1 initial in
  rainbow P 10 s = sweep_state P 10 1280 s
  /\ out (rainbow P 10 s) = sweep_events P 10 1280 ++ out s
  /\ shows (out (rainbow P 10 s)) = (1280 + shows (out s))%nat
  /\ 256 * Z.of_nat 1280 = rainbow_limit
  /\ mode (rainbow P 10 s) = mode s.
Proof.
  apply (rainbow_full_sweep (bench LOW 2 0) 10 (with_mode 1 initial)).
  - reflexivity.
  - reflexivity.
  - intros k _. apply bench_low_quiet.
Defined.

(** C6. When the poll before frame [k] of a sweep is the first to report a
    mode change, [rainbow] returns the state that poll left: no pixel is
    set and nothing is flushed after it, [k] (fewer than 1280) frames have
    been flushed, and the mode is the opposite of the one the sweep started
    in. *)
Theorem rainbow_abort (P : Platform) (wait : Z) (s : State) (k : nat) :
  (k < 1280)%nat ->
  (forall j : nat, (j < k)%nat ->
     fst (readSwitches P (sweep_state P wait j s)) = false) ->
  fst (readSwitches P (sweep_state P wait k s)) = true ->
  let st := sweep_state P wait k s in
  rainbow P wait s = snd (readSwitches P st)
  /\ out (rainbow P wait s) = out st
  /\ pixels (rainbow P wait s) = pixels st
  /\ shows (out (rainbow P wait s)) = (k + shows (out s))%nat
  /\ (shows (out (rainbow P wait s)) < 1280 + shows (out s))%nat
  /\ ((mode s = 0 /\ mode (rainbow P wait s) = 1)
      \/ (mode s = 1 /\ mode (rainbow P wait s) = 0)).
Proof.
  intros Hk Hquiet Hchange st. subst st.
  set (st := sweep_state P wait k s) in *.
  assert (Hrun : rainbow P wait s = snd (readSwitches P st)).
  { rewrite (rainbow_reaches P wait k s) by (try lia; exact Hquiet).
    rewrite rainbow_from_step. fold st.
    destruct (Z_lt_dec (256 * Z.of_nat k) rainbow_limit) as [_|Hge];
      [|unfold rainbow_limit in Hge; lia].
    rewrite Hchange. reflexivity. }
  rewrite Hrun, readSwitches_out, readSwitches_pixels, readSwitches_mode.
  pose proof (sweep_state_shows P wait k s) as Hshows. fold st in Hshows.
  assert (Hmode : mode st = mode s)
    by (apply sweep_state_mode; exact Hquiet).
  rewrite readSwitches_fst in Hchange. rewrite Hchange, Hmode.
  rewrite Hmode in Hchange.
  repeat split; try (rewrite Hshows; lia).
  unfold modeMismatch in Hchange.
  destruct (Z.eqb_spec (mode s) 0) as [H0|H0].
  - left. rewrite H0. split; reflexivity.
  - destruct (Z.eqb_spec (mode s) 1) as [H1|H1].
    + right. split; [exact H1 | reflexivity].
    + rewrite !andb_false_r in Hchange. discriminate Hchange.
Qed.

(** The mode line goes HIGH after 35 reads: the polls before frames 0, 1
    and 2 are quiet, the poll before frame 3 reports the change. *)
Lemma rainbow_abort_witness :
  let P := toggling_bench 35 in
  let s := with_mode 1 initial in
  let st := sweep_state P 10 3 s in
  rainbow P 10 s = snd (readSwitches P st)
  /\ out (rainbow P 10 s) = out st
  /\ pixels (rainbow P 10 s) = pixels st
  /\ shows (out (rainbow P 10 s)) = (3 + shows (out s))%nat
  /\ (shows (out (rainbow P 10 s)) < 1280 + shows (out s))%nat
  /\ ((mode s = 0 /\ mode (rainbow P 10 s) = 1)
      \/ (mode s = 1 /\ mode (rainbow P 10 s) = 0)).
Proof.
  apply (rainbow_abort (toggling_bench 35) 10 (with_mode 1 initial) 3).
  - lia.
  - intros j Hj.
    destruct j as [|[|[|j]]]; [vm_compute; reflexivity .. | lia].
  - vm_compute. reflexivity.
Defined.

(** ** rainbow: the hue of each pixel *)

Lemma hueOffset_nine (s : State) (i : nat) :
  numPixels s = LED_COUNT ->
  hueOffset i s = Z.of_nat i * 65536 / 9.
Proof.
  intros Hn. unfold hueOffset. rewrite Hn.
  apply Z.quot_div_nonneg; [lia | reflexivity].
Qed.

(** The arithmetic of the hue offsets on the nine-pixel strip: position
    [i] lies [i * 65536 / 9] past position 0 on the 16-bit hue wheel, in
    steps of 7281 or 7282, up to 58254 for position 8. *)
Lemma rainbow_hue_offsets (s : State) (firstPixelHue : Z) (i : nat) :
  numPixels s = LED_COUNT ->
  (i < LED_COUNT)%nat ->
  hueOffset i s = Z.of_nat i * 65536 / 9
  /\ (uint16 (pixelHue firstPixelHue i s) - uint16 (pixelHue firstPixelHue 0 s))
       mod 65536 = hueOffset i s
  /\ hueOffset 0 s = 0
  /\ ((i < 8)%nat -> 7281 <= hueOffset (S i) s - hueOffset i s <= 7282)
  /\ hueOffset 8 s = 58254
  /\ hueOffset 8 s < 65536.
Proof.
  intros Hn Hi.
  assert (Hrange : 0 <= hueOffset i s < 65536).
  { rewrite hueOffset_nine by exact Hn. unfold LED_COUNT in Hi.
    split.
    - apply Z.div_pos; lia.
    - apply Z.div_lt_upper_bound; lia. }
  split; [apply hueOffset_nine; exact Hn|].
  split.
  { unfold pixelHue. rewrite !uint16_int16. unfold uint16.
    rewrite <- Zminus_mod.
    rewrite (hueOffset_nine s 0 Hn).
    change (Z.of_nat 0 * 65536 / 9) with 0.
    replace (firstPixelHue + hueOffset i s - (firstPixelHue + 0))
      with (hueOffset i s) by lia.
    apply Z.mod_small. exact Hrange. }
  rewrite !hueOffset_nine by exact Hn.
  split; [reflexivity|].
  split.
  { intros Hi8.
    do 8 (destruct i as [|i]; [vm_compute; split; discriminate|]).
    lia. }
  split; [reflexivity | vm_compute; reflexivity].
Qed.

Lemma rainbow_hue_offsets_witness :
  hueOffset 4 initial = Z.of_nat 4 * 65536 / 9
  /\ (uint16 (pixelHue 327424 4 initial) - uint16 (pixelHue 327424 0 initial))
       mod 65536 = hueOffset 4 initial
  /\ hueOffset 0 initial = 0
  /\ ((4 < 8)%nat -> 7281 <= hueOffset 5 initial - hueOffset 4 initial <= 7282)
  /\ hueOffset 8 initial = 58254
  /\ hueOffset 8 initial < 65536.
Proof.
  apply (rainbow_hue_offsets initial 327424 4).
  - reflexivity.
  - unfold LED_COUNT. lia.
Defined.

(** ** The forced candle state *)

(** C1, at a failing input. Every line of the bench reads HIGH (all
    switches open), yet a call of [readSwitches] from the initial state
    leaves the state of every candle true. *)
Theorem readSwitches_open_switch_candle_on :
  (forall (n : nat) (pin : Z), digitalRead (bench HIGH 2 0) n pin = HIGH)
  /\ map candleLed.state (candles (snd (readSwitches (bench HIGH 2 0) initial)))
     = replicate 9 true.
Proof.
  split; [intros n pin; reflexivity | vm_compute; reflexivity].
Qed.

(** C2, at a failing input. With every line HIGH and two milliseconds on
    the clock, the first pass of [loop] after [setup] is a throttled
    flicker tick, and the frame it flushes shows all nine pixels lit. *)
Theorem flicker_open_switches_lit :
  mode (setup (bench HIGH 2 0) initial) = 0
  /\ out (loop (bench HIGH 2 0) (setup (bench HIGH 2 0) initial))
     = [Show (replicate 9 (96, 255, 12)); Show (replicate 9 (0, 0, 0))].
Proof.
  split; vm_compute; reflexivity.
Qed.

(** ** The globals stay well formed *)

(** Being well formed only concerns the three arrays. *)
Lemma State_ok_ext (s s' : State) :
  candles s' = candles s ->
  flickers s' = flickers s ->
  pixels s' = pixels s ->
  State_ok s -> State_ok s'.
Proof.
  unfold State_ok, numPixels. intros -> -> ->. exact id.
Qed.

Lemma initial_ok : State_ok initial.
Proof.
  repeat split; try reflexivity;
    do 9 (destruct i as [|i]; [vm_compute; discriminate|]);
    unfold LED_COUNT in *; lia.
Qed.

Lemma readSwitches_ok (P : Platform) (s : State) :
  State_ok s -> State_ok (snd (readSwitches P s)).
Proof.
  intros (Hc & Hf & Hp & Hok). unfold State_ok, numPixels in *.
  rewrite readSwitches_candles, switched_length, readSwitches_flickers,
    readSwitches_pixels.
  auto.
Qed.

Lemma flicker_loop_ok (P : Platform) (s : State) :
  State_ok s -> State_ok (for_upto LED_COUNT (flicker_led P) s).
Proof.
  intros (Hc & Hf & Hp & Hok). unfold State_ok, numPixels in *.
  destruct (flicker_loop_lengths P LED_COUNT s) as [Hlf Hlp].
  rewrite flicker_loop_candles, Hlf, Hlp.
  split; [exact Hc|]. split; [exact Hf|]. split; [exact Hp|].
  intros i Hi.
  destruct (flicker_loop_turn P s i Hi) as (-> & _ & Hfi & Hci & Hlf' & Hlp').
  set (si := for_upto i (flicker_led P) s) in *.
  assert (Hoki : flicker_ok (flickers si !!! i))
    by (rewrite Hfi; apply Hok; exact Hi).
  destruct (flicker_led_at P i si) as (Hreset & Hkeep & Hdelay & _);
    [lia | lia | exact Hoki |].
  destruct Hoki as (Hr & Hg & Hb & Hd).
  unfold flicker_ok.
  unfold flickerFlickerHigh, flickerStartRed, flickerStartGreen,
    flickerStartBlue, flickerDelayLow in *.
  rewrite Hdelay.
  destruct (Z.leb_spec (candleFlicker.delay (flickers si !!! i)) 0) as [Hle|Hgt].
  - destruct (Hreset Hle) as (Hm & -> & -> & ->). lia.
  - destruct (Hkeep Hgt) as (-> & -> & -> & _). lia.
Qed.

Lemma emit_ok (e : Event) (s : State) : State_ok s -> State_ok (emit e s).
Proof. apply State_ok_ext; reflexivity. Qed.

Lemma with_flickerMillisecondsLast_ok (v : Z) (s : State) :
  State_ok s -> State_ok (with_flickerMillisecondsLast v s).
Proof. apply State_ok_ext; reflexivity. Qed.

Lemma flicker_tick_ok (P : Platform) (s : State) :
  State_ok s -> State_ok (flicker_tick P s).
Proof.
  intros Hok. unfold flicker_tick, show.
  apply emit_ok, flicker_loop_ok, with_flickerMillisecondsLast_ok,
    readSwitches_ok.
  exact Hok.
Qed.

Lemma flicker_preserves_ok (P : Platform) (s : State) :
  State_ok s -> State_ok (flicker P s).
Proof.
  intros Hok. unfold flicker.
  set (s2 := with_flickerMillisecondsDifference _ _).
  assert (Hok2 : State_ok s2)
    by (apply (State_ok_ext s); [reflexivity .. | exact Hok]).
  clearbody s2.
  destruct (flickerMillisecondsDifference s2 >? 1);
    [apply flicker_tick_ok|]; exact Hok2.
Qed.

Lemma rainbow_frame_ok (P : Platform) (wait firstPixelHue : Z) (s : State) :
  State_ok s -> State_ok (rainbow_frame P wait firstPixelHue s).
Proof.
  intros Hok. unfold rainbow_frame, delay, show.
  apply emit_ok, emit_ok.
  generalize (numPixels s) at 1. intros n.
  induction n as [|n IH]; [exact Hok|].
  rewrite for_upto_S, rainbow_pixel_eq.
  destruct IH as (Hc & Hf & Hp & Hfl).
  unfold State_ok, numPixels in *.
  cbn [candles flickers pixels with_pixels].
  rewrite length_insert. auto.
Qed.

Lemma rainbow_from_ok (P : Platform) (wait firstPixelHue : Z) (s : State) :
  State_ok s -> State_ok (rainbow_from P wait firstPixelHue s).
Proof.
  remember (Z.to_nat (rainbow_limit - firstPixelHue)) as n eqn:Hn.
  revert firstPixelHue s Hn.
  induction n as [n IH] using lt_wf_ind. intros firstPixelHue s Hn Hok.
  rewrite rainbow_from_step.
  destruct (Z_lt_dec firstPixelHue rainbow_limit) as [Hlt|_]; [|exact Hok].
  destruct (fst (readSwitches P s)).
  - apply readSwitches_ok. exact Hok.
  - apply (IH (Z.to_nat (rainbow_limit - (firstPixelHue + 256)))).
    + lia.
    + reflexivity.
    + apply rainbow_frame_ok, readSwitches_ok. exact Hok.
Qed.

Lemma loop_ok (P : Platform) (s : State) : State_ok s -> State_ok (loop P s).
Proof.
  intros Hok. unfold loop.
  destruct (mode s =? 0); [apply flicker_preserves_ok; exact Hok|].
  destruct (mode s =? 1); [apply rainbow_from_ok; exact Hok | exact Hok].
Qed.

Lemma setup_ok (P : Platform) : State_ok (setup P initial).
Proof.
  unfold setup. apply readSwitches_ok.
  exact initial_ok.
Qed.

(** Every state the sketch reaches between two passes of [loop] is well
    formed. *)
Lemma reachable_ok (P : Platform) (n : nat) :
  State_ok (Nat.iter n (loop P) (setup P initial)).
Proof.
  induction n as [|n IH]; [apply setup_ok|].
  simpl. apply loop_ok. exact IH.
Qed.

(** * Further properties of the sketch *)

(** ** Shapes: which globals each function can touch *)

Lemma readSwitches_shape (P : Platform) (s : State) :
  snd (readSwitches P s) =
  with_mode (mode (snd (readSwitches P s)))
    (with_candles (switched LED_COUNT (candles s))
       (with_reads (10 + reads s) s)).
Proof.
  rewrite readSwitches_eq. cbv zeta.
  destruct (modeMismatch _ _); reflexivity.
Qed.

Lemma flicker_led_shape (P : Platform) (i : nat) (s : State) :
  exists F PX D,
    flicker_led P i s = with_flickers F (with_pixels PX (with_draws D s)).
Proof.
  rewrite flicker_led_eq. cbv zeta.
  destruct (candleFlicker.delay (flickers s !!! i) <=? 0).
  - rewrite (flicker_reset_eq P i s).
    set (F0 := flickers (flicker_reset P i s)). clearbody F0.
    eexists _, _, (S (draws s)). reflexivity.
  - eexists _, _, (draws s). reflexivity.
Qed.

Lemma flicker_loop_shape (P : Platform) (n : nat) (s : State) :
  exists F PX D,
    for_upto n (flicker_led P) s
    = with_flickers F (with_pixels PX (with_draws D s)).
Proof.
  induction n as [|n (F & PX & D & IH)].
  - exists (flickers s), (pixels s), (draws s). destruct s; reflexivity.
  - rewrite for_upto_S, IH.
    destruct (flicker_led_shape P n
                (with_flickers F (with_pixels PX (with_draws D s))))
      as (F' & PX' & D' & ->).
    exists F', PX', D'. reflexivity.
Qed.

Lemma flicker_tick_shape (P : Platform) (s : State) :
  exists F PX D,
    flicker_tick P s =
    emit (Show PX)
      (with_flickers F
         (with_pixels PX
            (with_draws D
               (with_flickerMillisecondsLast (flickerMillisecondsCurrent s)
                  (snd (readSwitches P s)))))).
Proof.
  unfold flicker_tick, show.
  set (s1 := snd (readSwitches P s)).
  assert (Hcur : flickerMillisecondsCurrent s1 = flickerMillisecondsCurrent s)
    by (subst s1; rewrite readSwitches_shape; reflexivity).
  rewrite Hcur. clearbody s1.
  destruct (flicker_loop_shape P LED_COUNT
              (with_flickerMillisecondsLast (flickerMillisecondsCurrent s) s1))
    as (F & PX & D & ->).
  exists F, PX, D. reflexivity.
Qed.

Lemma flicker_split (P : Platform) (s : State) :
  flicker P s =
  if flicker_due P s then flicker_tick P (flicker_clocked P s)
  else flicker_clocked P s.
Proof. reflexivity. Qed.

(** ** flicker: a whole tick *)

Lemma list_eq_total {A : Type} `{Inhabited A} (l1 l2 : list A) :
  length l1 = length l2 ->
  (forall i : nat, (i < length l1)%nat -> l1 !!! i = l2 !!! i) ->
  l1 = l2.
Proof.
  intros Hlen Hat. apply list_eq. intros i.
  destruct (Nat.lt_ge_cases i (length l1)) as [Hlt|Hge].
  - rewrite !list_lookup_lookup_total_lt by lia.
    f_equal. apply Hat. exact Hlt.
  - rewrite !lookup_ge_None_2 by lia. reflexivity.
Qed.

Lemma flicker_tick_unfold (P : Platform) (s : State) :
  flicker_tick P s =
  show (for_upto LED_COUNT (flicker_led P)
          (with_flickerMillisecondsLast
             (flickerMillisecondsCurrent (snd (readSwitches P s)))
             (snd (readSwitches P s)))).
Proof. reflexivity. Qed.

Lemma show_arrays (s : State) :
  candles (show s) = candles s
  /\ flickers (show s) = flickers s
  /\ pixels (show s) = pixels s.
Proof. repeat split. Qed.

Lemma with_flickerMillisecondsLast_arrays (v : Z) (s : State) :
  candles (with_flickerMillisecondsLast v s) = candles s
  /\ flickers (with_flickerMillisecondsLast v s) = flickers s
  /\ pixels (with_flickerMillisecondsLast v s) = pixels s.
Proof. repeat split. Qed.

(** The state the loop of a tick starts from has the arrays [readSwitches]
    left. *)
Lemma flicker_tick_start (P : Platform) (s : State) :
  exists s2 : State,
    flicker_tick P s = show (for_upto LED_COUNT (flicker_led P) s2)
    /\ candles s2 = switched LED_COUNT (candles s)
    /\ flickers s2 = flickers s
    /\ pixels s2 = pixels s.
Proof.
  eexists. split; [apply flicker_tick_unfold|].
  destruct (with_flickerMillisecondsLast_arrays
              (flickerMillisecondsCurrent (snd (readSwitches P s)))
              (snd (readSwitches P s))) as (-> & -> & ->).
  rewrite readSwitches_candles, readSwitches_flickers, readSwitches_pixels.
  repeat split.
Qed.

(** What a tick leaves in the record and the pixel of LED [i]: the pixel
    always shows the record, because every candle has been switched on. *)
Lemma flicker_tick_at (P : Platform) (s : State) (i : nat) :
  State_ok s ->
  (i < LED_COUNT)%nat ->
  let f0 := flickers s !!! i in
  let f' := flickers (flicker_tick P s) !!! i in
  (candleFlicker.delay f0 <= 0 ->
     0 <= candleFlicker.flicker f' < flickerFlickerHigh
     /\ candleFlicker.red f' = Z.max 0 (flickerStartRed - candleFlicker.flicker f')
     /\ candleFlicker.green f'
        = Z.max 0 (flickerStartGreen - candleFlicker.flicker f')
     /\ candleFlicker.blue f'
        = Z.max 0 (flickerStartBlue - candleFlicker.flicker f'))
  /\ (0 < candleFlicker.delay f0 ->
        candleFlicker.red f' = candleFlicker.red f0
        /\ candleFlicker.green f' = candleFlicker.green f0
        /\ candleFlicker.blue f' = candleFlicker.blue f0
        /\ candleFlicker.flicker f' = candleFlicker.flicker f0)
  /\ candleFlicker.delay f'
     = (if candleFlicker.delay f0 <=? 0 then flickerDelayLow
        else candleFlicker.delay f0) - 1
  /\ pixels (flicker_tick P s) !!! i = flame_pixel f'.
Proof.
  intros (Hc & Hf & Hp & Hok) Hi f0 f'. subst f0 f'.
  destruct (flicker_tick_start P s) as (s2 & -> & Hc2' & Hf2 & Hp2).
  destruct (show_arrays (for_upto LED_COUNT (flicker_led P) s2))
    as (_ & -> & ->).
  assert (Hc2 : candleLed.state (candles s2 !!! i) = true)
    by (rewrite Hc2'; apply switched_state; [exact Hi | rewrite Hc; exact Hi]).
  destruct (flicker_loop_turn P s2 i Hi) as (-> & -> & Hfi & Hci & Hlf & Hlp).
  set (si := for_upto i (flicker_led P) s2) in *. clearbody si.
  rewrite <- Hf2, <- Hfi.
  destruct (flicker_led_at P i si) as (Hreset & Hkeep & Hdelay & Hpx).
  - rewrite Hlf, Hf2, Hf. exact Hi.
  - rewrite Hlp, Hp2. unfold numPixels in Hp. rewrite Hp. exact Hi.
  - rewrite Hfi, Hf2. apply Hok. exact Hi.
  - rewrite Hci, Hc2 in Hpx.
    split; [exact Hreset|]. split; [exact Hkeep|].
    split; [exact Hdelay | exact Hpx].
Qed.

Lemma flicker_tick_lengths (P : Platform) (s : State) :
  length (flickers (flicker_tick P s)) = length (flickers s)
  /\ length (pixels (flicker_tick P s)) = length (pixels s).
Proof.
  destruct (flicker_tick_start P s) as (s2 & -> & _ & Hf2 & Hp2).
  destruct (show_arrays (for_upto LED_COUNT (flicker_led P) s2))
    as (_ & -> & ->).
  destruct (flicker_loop_lengths P LED_COUNT s2) as [-> ->].
  rewrite Hf2, Hp2. split; reflexivity.
Qed.

Lemma flicker_clocked_ok (P : Platform) (s : State) :
  State_ok s -> State_ok (flicker_clocked P s).
Proof. apply State_ok_ext; reflexivity. Qed.

Lemma readSwitches_clock (P : Platform) (s : State) :
  ticks (snd (readSwitches P s)) = ticks s
  /\ draws (snd (readSwitches P s)) = draws s
  /\ flickerMillisecondsCurrent (snd (readSwitches P s))
     = flickerMillisecondsCurrent s
  /\ flickerMillisecondsLast (snd (readSwitches P s))
     = flickerMillisecondsLast s.
Proof.
  rewrite readSwitches_eq. cbv zeta.
  destruct (modeMismatch _ _); repeat split.
Qed.

(** The globals a tick leaves alone or sets from the poll. *)
Lemma flicker_tick_fields (P : Platform) (s : State) :
  out (flicker_tick P s) = Show (pixels (flicker_tick P s)) :: out s
  /\ mode (flicker_tick P s) = mode (snd (readSwitches P s))
  /\ reads (flicker_tick P s) = (10 + reads s)%nat
  /\ ticks (flicker_tick P s) = ticks s
  /\ flickerMillisecondsCurrent (flicker_tick P s) = flickerMillisecondsCurrent s
  /\ flickerMillisecondsLast (flicker_tick P s) = flickerMillisecondsCurrent s.
Proof.
  destruct (flicker_tick_shape P s) as (F & PX & D & ->).
  destruct (readSwitches_clock P s) as (Ht & _ & Hcur & _).
  pose proof (readSwitches_out P s) as Hout.
  pose proof (readSwitches_reads P s) as Hreads.
  set (s1 := snd (readSwitches P s)) in *. clearbody s1.
  cbn [out mode reads ticks flickerMillisecondsCurrent flickerMillisecondsLast
       pixels emit with_flickers with_pixels with_draws
       with_flickerMillisecondsLast].
  rewrite Hout, Hreads, Ht, Hcur. repeat split.
Qed.

(** X1. Every call of [flicker] that passes the throttle polls the
    switches once (ten reads) and flushes exactly one frame; on a
    well-formed state that frame shows, for each of the nine LEDs, the
    colour of its record as (green, red, blue), whatever the switches
    read. *)
Theorem flicker_tick_frame (P : Platform) (s : State) :
  State_ok s ->
  flicker_due P s = true ->
  out (flicker P s) = Show (flame_pixel <$> flickers (flicker P s)) :: out s
  /\ length (flickers (flicker P s)) = 9%nat
  /\ reads (flicker P s) = (10 + reads s)%nat.
Proof.
  intros Hok Hdue. rewrite flicker_split, Hdue.
  pose proof (flicker_clocked_ok P s Hok) as Hok2.
  set (s2 := flicker_clocked P s) in *.
  assert (Hout2 : out s2 = out s) by reflexivity.
  assert (Hreads2 : reads s2 = reads s) by reflexivity.
  clearbody s2.
  destruct (flicker_tick_fields P s2) as (Hout & _ & Hreads & _).
  destruct (flicker_tick_lengths P s2) as [Hlf Hlp].
  pose proof Hok2 as (Hc & Hf & Hp & Hfl).
  rewrite Hout, Hreads, Hout2, Hreads2, Hlf, Hf.
  repeat split.
  do 2 f_equal.
  apply list_eq_total.
  - rewrite length_fmap, Hlp, Hlf. unfold numPixels in Hp. congruence.
  - intros i Hi.
    rewrite Hlp in Hi. unfold numPixels in Hp. rewrite Hp in Hi.
    destruct (flicker_tick_at P s2 i) as (_ & _ & _ & ->);
      [exact Hok2 | exact Hi |].
    symmetry. apply list_lookup_total_fmap.
    rewrite Hlf, Hf. exact Hi.
Qed.

Lemma flicker_tick_frame_witness :
  out (flicker (bench HIGH 2 7) initial)
  = Show (flame_pixel <$> flickers (flicker (bench HIGH 2 7) initial))
    :: out initial
  /\ length (flickers (flicker (bench HIGH 2 7) initial)) = 9%nat
  /\ reads (flicker (bench HIGH 2 7) initial) = (10 + reads initial)%nat.
Proof.
  apply (flicker_tick_frame (bench HIGH 2 7) initial).
  - exact initial_ok.
  - reflexivity.
Defined.

(** ** flicker: the throttle *)

Lemma flicker_clocked_fields (P : Platform) (s : State) :
  ticks (flicker_clocked P s) = S (ticks s)
  /\ flickerMillisecondsCurrent (flicker_clocked P s)
     = int32 (millis P (ticks s))
  /\ flickerMillisecondsLast (flicker_clocked P s) = flickerMillisecondsLast s
  /\ flickerMillisecondsDifference (flicker_clocked P s)
     = int32 (int32 (millis P (ticks s)) - flickerMillisecondsLast s).
Proof. repeat split. Qed.

Lemma flicker_clocked_rest (P : Platform) (s : State) :
  candles (flicker_clocked P s) = candles s
  /\ mode (flicker_clocked P s) = mode s
  /\ flickers (flicker_clocked P s) = flickers s
  /\ pixels (flicker_clocked P s) = pixels s
  /\ reads (flicker_clocked P s) = reads s
  /\ draws (flicker_clocked P s) = draws s
  /\ out (flicker_clocked P s) = out s.
Proof. repeat split. Qed.

Lemma flicker_due_eq (P : Platform) (s : State) :
  flicker_due P s
  = (int32 (int32 (millis P (ticks s)) - flickerMillisecondsLast s) >? 1).
Proof. reflexivity. Qed.

(** The clock globals after a call of [flicker]. *)
Lemma flicker_clock_after (P : Platform) (s : State) :
  ticks (flicker P s) = S (ticks s)
  /\ flickerMillisecondsLast (flicker P s)
     = (if flicker_due P s then int32 (millis P (ticks s))
        else flickerMillisecondsLast s).
Proof.
  rewrite flicker_split.
  destruct (flicker_clocked_fields P s) as (Ht & Hcur & Hlast & _).
  destruct (flicker_due P s).
  - destruct (flicker_tick_fields P (flicker_clocked P s))
      as (_ & _ & _ & -> & _ & ->).
    rewrite Ht, Hcur. split; reflexivity.
  - rewrite Ht, Hlast. split; reflexivity.
Qed.

Lemma int32_zero_diff (x : Z) : int32 (x - x) = 0.
Proof. rewrite Z.sub_diag. reflexivity. Qed.

(** X2. A call of [flicker] that reads the same clock value as the call
    before it never passes the throttle: it polls no switch, draws nothing,
    flushes nothing and leaves candles, mode, flicker records and pixels
    as they are. *)
Theorem flicker_same_clock_idle (P : Platform) (s : State) :
  millis P (S (ticks s)) = millis P (ticks s) ->
  let s1 := flicker P s in
  flicker_due P s1 = false
  /\ candles (flicker P s1) = candles s1
  /\ mode (flicker P s1) = mode s1
  /\ flickers (flicker P s1) = flickers s1
  /\ pixels (flicker P s1) = pixels s1
  /\ reads (flicker P s1) = reads s1
  /\ draws (flicker P s1) = draws s1
  /\ out (flicker P s1) = out s1.
Proof.
  intros Hclock s1.
  destruct (flicker_clock_after P s) as (Ht & Hlast).
  fold s1 in Ht, Hlast.
  assert (Hidle : flicker_due P s1 = false).
  { rewrite flicker_due_eq, Ht, Hclock, Hlast.
    destruct (flicker_due P s) eqn:Hdue.
    - rewrite int32_zero_diff. reflexivity.
    - rewrite flicker_due_eq in Hdue. exact Hdue. }
  clearbody s1.
  rewrite flicker_split, Hidle.
  split; [reflexivity|].
  apply flicker_clocked_rest.
Qed.

Lemma flicker_same_clock_idle_witness :
  let s1 := flicker (bench HIGH 2 7) initial in
  flicker_due (bench HIGH 2 7) s1 = false
  /\ candles (flicker (bench HIGH 2 7) s1) = candles s1
  /\ mode (flicker (bench HIGH 2 7) s1) = mode s1
  /\ flickers (flicker (bench HIGH 2 7) s1) = flickers s1
  /\ pixels (flicker (bench HIGH 2 7) s1) = pixels s1
  /\ reads (flicker (bench HIGH 2 7) s1) = reads s1
  /\ draws (flicker (bench HIGH 2 7) s1) = draws s1
  /\ out (flicker (bench HIGH 2 7) s1) = out s1.
Proof.
  apply (flicker_same_clock_idle (bench HIGH 2 7) initial).
  reflexivity.
Defined.

(** ** flicker: the life of a colour *)

Lemma flicker_ticks_ok (P : Platform) (k : nat) (s : State) :
  State_ok s -> State_ok (Nat.iter k (flicker_tick P) s).
Proof.
  intros Hok. induction k as [|k IH]; [exact Hok|].
  simpl. apply flicker_tick_ok. exact IH.
Qed.

(** While its countdown is positive a candle keeps its colour, and each
    tick takes one off the countdown. *)
Lemma flicker_ticks_hold (P : Platform) (s : State) (i k : nat) :
  State_ok s ->
  (i < LED_COUNT)%nat ->
  Z.of_nat k <= candleFlicker.delay (flickers s !!! i) ->
  let f0 := flickers s !!! i in
  let f' := flickers (Nat.iter k (flicker_tick P) s) !!! i in
  candleFlicker.red f' = candleFlicker.red f0
  /\ candleFlicker.green f' = candleFlicker.green f0
  /\ candleFlicker.blue f' = candleFlicker.blue f0
  /\ candleFlicker.flicker f' = candleFlicker.flicker f0
  /\ candleFlicker.delay f' = candleFlicker.delay f0 - Z.of_nat k.
Proof.
  intros Hok Hi. cbv zeta.
  induction k as [|k IH]; intros Hk.
  - simpl. repeat split. lia.
  - destruct IH as (Hr & Hg & Hb & Hm & Hd); [lia|].
    rewrite Nat.iter_succ.
    pose proof (flicker_ticks_ok P k s Hok) as Hokk.
    set (sk := Nat.iter k (flicker_tick P) s) in *. clearbody sk.
    destruct (flicker_tick_at P sk i Hokk Hi) as (_ & Hkeep & Hdelay & _).
    destruct Hkeep as (Hr' & Hg' & Hb' & Hm'); [lia|].
    rewrite Hr', Hg', Hb', Hm', Hdelay.
    destruct (Z.leb_spec (candleFlicker.delay (flickers sk !!! i)) 0); [lia|].
    repeat split; try assumption. lia.
Qed.

(** X3. A candle whose countdown has expired is reset on the next tick, and
    the colour and magnitude of that reset are held for exactly fifty ticks:
    after tick [k] of the fifty the countdown stands at [50 - k], so it is
    back at zero, and the candle due for its next reset, after the
    fiftieth. *)
Theorem flicker_reset_period (P : Platform) (s : State) (i k : nat) :
  State_ok s ->
  (i < LED_COUNT)%nat ->
  candleFlicker.delay (flickers s !!! i) <= 0 ->
  (1 <= k <= 50)%nat ->
  let f1 := flickers (flicker_tick P s) !!! i in
  let fk := flickers (Nat.iter k (flicker_tick P) s) !!! i in
  candleFlicker.red fk = candleFlicker.red f1
  /\ candleFlicker.green fk = candleFlicker.green f1
  /\ candleFlicker.blue fk = candleFlicker.blue f1
  /\ candleFlicker.flicker fk = candleFlicker.flicker f1
  /\ candleFlicker.delay fk = 50 - Z.of_nat k.
Proof.
  intros Hok Hi Hdue Hk. cbv zeta.
  destruct k as [|k]; [lia|].
  rewrite Nat.iter_succ_r.
  destruct (flicker_tick_at P s i Hok Hi) as (_ & _ & Hdelay & _).
  destruct (Z.leb_spec (candleFlicker.delay (flickers s !!! i)) 0); [|lia].
  pose proof (flicker_tick_ok P s Hok) as Hok1.
  set (s1 := flicker_tick P s) in *. clearbody s1.
  unfold flickerDelayLow in Hdelay.
  destruct (flicker_ticks_hold P s1 i k Hok1 Hi) as (Hr & Hg & Hb & Hm & Hd);
    [lia|].
  rewrite Hr, Hg, Hb, Hm, Hd, Hdelay.
  repeat split. lia.
Qed.

Lemma flicker_reset_period_witness :
  let P := bench HIGH 2 7 in
  let f1 := flickers (flicker_tick P initial) !!! 3%nat in
  let fk := flickers (Nat.iter 50 (flicker_tick P) initial) !!! 3%nat in
  candleFlicker.red fk = candleFlicker.red f1
  /\ candleFlicker.green fk = candleFlicker.green f1
  /\ candleFlicker.blue fk = candleFlicker.blue f1
  /\ candleFlicker.flicker fk = candleFlicker.flicker f1
  /\ candleFlicker.delay fk = 50 - Z.of_nat 50.
Proof.
  apply (flicker_reset_period (bench HIGH 2 7) initial 3 50).
  - exact initial_ok.
  - unfold LED_COUNT. lia.
  - vm_compute. discriminate.
  - lia.
Defined.

(** ** What holds in every state the sketch reaches *)

(** [rainbow] keeps whatever a poll and a frame keep. *)
Lemma rainbow_from_preserves (P : Platform) (wait : Z) (Q : State -> Prop) :
  (forall s : State, Q s -> Q (snd (readSwitches P s))) ->
  (forall (h : Z) (s : State), Q s -> Q (rainbow_frame P wait h s)) ->
  forall (firstPixelHue : Z) (s : State),
    Q s -> Q (rainbow_from P wait firstPixelHue s).
Proof.
  intros Hpoll Hframe firstPixelHue.
  remember (Z.to_nat (rainbow_limit - firstPixelHue)) as n eqn:Hn.
  revert firstPixelHue Hn.
  induction n as [n IH] using lt_wf_ind. intros firstPixelHue Hn s HQ.
  rewrite rainbow_from_step.
  destruct (Z_lt_dec firstPixelHue rainbow_limit) as [Hlt|_]; [|exact HQ].
  destruct (fst (readSwitches P s)).
  - apply Hpoll. exact HQ.
  - apply (IH (Z.to_nat (rainbow_limit - (firstPixelHue + 256)))).
    + lia.
    + reflexivity.
    + apply Hframe, Hpoll. exact HQ.
Qed.

Lemma rainbow_frame_shape (P : Platform) (wait firstPixelHue : Z) (s : State) :
  exists PX,
    rainbow_frame P wait firstPixelHue s
    = emit (Delay (uint32 wait)) (emit (Show PX) (with_pixels PX s)).
Proof.
  unfold rainbow_frame, delay, show.
  generalize (numPixels s). intros n.
  assert (Hloop : exists PX,
            for_upto n (rainbow_pixel P firstPixelHue) s = with_pixels PX s).
  { induction n as [|n (PX & IH)].
    - exists (pixels s). destruct s; reflexivity.
    - rewrite for_upto_S, IH, rainbow_pixel_eq. eexists. reflexivity. }
  destruct Hloop as (PX & ->). exists PX. reflexivity.
Qed.

Lemma Flames_ok_ext (s s' : State) :
  candles s' = candles s ->
  flickers s' = flickers s ->
  length (pixels s') = length (pixels s) ->
  Flames_ok s -> Flames_ok s'.
Proof.
  unfold Flames_ok, numPixels. intros -> -> ->. exact id.
Qed.

Lemma flame_ok_flicker_ok (f : candleFlicker.t) : flame_ok f -> flicker_ok f.
Proof.
  unfold flame_ok, flicker_ok, flickerStartRed, flickerStartGreen,
    flickerStartBlue.
  lia.
Qed.

Lemma Flames_ok_State_ok (s : State) : Flames_ok s -> State_ok s.
Proof.
  intros (Hc & Hf & Hp & Hfl). repeat split; try assumption;
    apply flame_ok_flicker_ok, Hfl; assumption.
Qed.

Lemma initial_flames : Flames_ok initial.
Proof.
  split; [reflexivity|]. split; [reflexivity|]. split; [reflexivity|].
  intros i Hi.
  do 9 (destruct i as [|i]; [vm_compute; repeat split; discriminate|]).
  unfold LED_COUNT in Hi. lia.
Qed.

Lemma readSwitches_flames (P : Platform) (s : State) :
  Flames_ok s -> Flames_ok (snd (readSwitches P s)).
Proof.
  intros (Hc & Hf & Hp & Hfl). unfold Flames_ok, numPixels in *.
  rewrite readSwitches_candles, switched_length, readSwitches_flickers,
    readSwitches_pixels.
  auto.
Qed.

(** No turn of the loop writes the [time] of a candle. *)
Lemma flicker_led_time (P : Platform) (i : nat) (s : State) :
  (i < length (flickers s))%nat ->
  candleFlicker.time (flickers (flicker_led P i s) !!! i)
  = candleFlicker.time (flickers s !!! i).
Proof.
  intros Hi. rewrite flicker_led_eq. cbv zeta.
  cbn [flickers with_flickers with_pixels].
  destruct (candleFlicker.delay (flickers s !!! i) <=? 0).
  - rewrite list_lookup_total_insert_eq
      by (rewrite flicker_reset_length; exact Hi).
    rewrite (flicker_reset_at P i s Hi). reflexivity.
  - rewrite list_lookup_total_insert_eq by exact Hi. reflexivity.
Qed.

Lemma flicker_tick_time (P : Platform) (s : State) (i : nat) :
  State_ok s ->
  (i < LED_COUNT)%nat ->
  candleFlicker.time (flickers (flicker_tick P s) !!! i)
  = candleFlicker.time (flickers s !!! i).
Proof.
  intros (Hc & Hf & Hp & Hok) Hi.
  destruct (flicker_tick_start P s) as (s2 & -> & _ & Hf2 & _).
  destruct (show_arrays (for_upto LED_COUNT (flicker_led P) s2))
    as (_ & -> & _).
  destruct (flicker_loop_turn P s2 i Hi) as (-> & _ & Hfi & _ & Hlf & _).
  rewrite <- Hf2, <- Hfi.
  apply flicker_led_time.
  rewrite Hlf, Hf2, Hf. exact Hi.
Qed.

Lemma flicker_tick_flames (P : Platform) (s : State) :
  Flames_ok s -> Flames_ok (flicker_tick P s).
Proof.
  intros Hfl.
  pose proof (Flames_ok_State_ok s Hfl) as Hok.
  destruct (flicker_tick_ok P s Hok) as (Hc' & Hf' & Hp' & _).
  split; [exact Hc'|]. split; [exact Hf'|]. split; [exact Hp'|].
  intros i Hi.
  destruct Hfl as (_ & _ & _ & Hfl). specialize (Hfl i Hi).
  destruct (flicker_tick_at P s i Hok Hi) as (Hreset & Hkeep & Hdelay & _).
  pose proof (flicker_tick_time P s i Hok Hi) as Htime.
  destruct Hfl as (Hm & Hr & Hg & Hb & Hd & Ht).
  unfold flame_ok. rewrite Hdelay, Htime.
  unfold flickerFlickerHigh, flickerStartRed, flickerStartGreen,
    flickerStartBlue, flickerDelayLow in *.
  destruct (Z.leb_spec (candleFlicker.delay (flickers s !!! i)) 0) as [Hle|Hgt].
  - destruct (Hreset Hle) as (Hm' & -> & -> & ->). lia.
  - destruct (Hkeep Hgt) as (-> & -> & -> & ->). lia.
Qed.

Lemma flicker_flames (P : Platform) (s : State) :
  Flames_ok s -> Flames_ok (flicker P s).
Proof.
  intros Hfl. rewrite flicker_split.
  assert (Hfl2 : Flames_ok (flicker_clocked P s))
    by (apply (Flames_ok_ext s); [reflexivity .. | exact Hfl]).
  destruct (flicker_due P s); [apply flicker_tick_flames|]; exact Hfl2.
Qed.

Lemma rainbow_frame_flames (P : Platform) (wait h : Z) (s : State) :
  Flames_ok s -> Flames_ok (rainbow_frame P wait h s).
Proof.
  intros Hfl.
  pose proof (rainbow_frame_ok P wait h s (Flames_ok_State_ok s Hfl))
    as (_ & _ & Hp & _).
  apply (Flames_ok_ext s); try exact Hfl.
  - destruct (rainbow_frame_shape P wait h s) as (PX & ->). reflexivity.
  - destruct (rainbow_frame_shape P wait h s) as (PX & ->). reflexivity.
  - destruct Hfl as (_ & _ & Hp0 & _). unfold numPixels in *. congruence.
Qed.

Lemma loop_flames (P : Platform) (s : State) :
  Flames_ok s -> Flames_ok (loop P s).
Proof.
  intros Hfl. unfold loop.
  destruct (mode s =? 0); [apply flicker_flames; exact Hfl|].
  destruct (mode s =? 1); [|exact Hfl].
  unfold rainbow. apply (rainbow_from_preserves P 10 Flames_ok).
  - apply readSwitches_flames.
  - intros h st. apply rainbow_frame_flames.
  - exact Hfl.
Qed.

Lemma setup_flames (P : Platform) : Flames_ok (setup P initial).
Proof.
  unfold setup. apply readSwitches_flames.
  apply (Flames_ok_ext initial); [reflexivity .. | exact initial_flames].
Qed.

(** X4. In every state the sketch reaches between two passes of [loop],
    every field of each of the nine flicker records is in range: the
    magnitude between 0 and 39, red the start red less the magnitude (so
    between 216 and 255), green 159 below red, blue the excess of red over
    243, the countdown between 0 and 49, and [time] still zero.  No field
    of a record goes negative or leaves the range of an int. *)
Theorem reachable_flames (P : Platform) (n i : nat) :
  (i < LED_COUNT)%nat ->
  let f := flickers (Nat.iter n (loop P) (setup P initial)) !!! i in
  216 <= candleFlicker.red f <= 255
  /\ candleFlicker.green f = candleFlicker.red f - 159
  /\ candleFlicker.blue f = Z.max 0 (candleFlicker.red f - 243)
  /\ 0 <= candleFlicker.delay f <= 49
  /\ 0 <= candleFlicker.flicker f <= 39
  /\ candleFlicker.red f = 255 - candleFlicker.flicker f
  /\ candleFlicker.time f = 0.
Proof.
  intros Hi f. subst f.
  assert (Hfl : Flames_ok (Nat.iter n (loop P) (setup P initial))).
  { induction n as [|n IH]; [apply setup_flames|].
    rewrite Nat.iter_succ. apply loop_flames. exact IH. }
  destruct Hfl as (_ & _ & _ & Hfl).
  destruct (Hfl i Hi) as (Hm & Hr & Hg & Hb & Hd & Ht).
  unfold flickerStartRed, flickerStartGreen, flickerStartBlue in *.
  repeat split; lia.
Qed.

Lemma reachable_flames_witness :
  let f :=
    flickers (Nat.iter 3 (loop (bench HIGH 2 7)) (setup (bench HIGH 2 7) initial))
      !!! 8%nat in
  216 <= candleFlicker.red f <= 255
  /\ candleFlicker.green f = candleFlicker.red f - 159
  /\ candleFlicker.blue f = Z.max 0 (candleFlicker.red f - 243)
  /\ 0 <= candleFlicker.delay f <= 49
  /\ 0 <= candleFlicker.flicker f <= 39
  /\ candleFlicker.red f = 255 - candleFlicker.flicker f
  /\ candleFlicker.time f = 0.
Proof.
  apply (reachable_flames (bench HIGH 2 7) 3 8).
  unfold LED_COUNT. lia.
Defined.

(** ** The mode *)

(** X5. When the mode is one of the two the sketch knows, a call of
    [readSwitches] leaves the mode the line asks for, rainbow (1) for LOW
    and flicker (0) for HIGH, where the line is the tenth read of the call;
    and the call returns true exactly when it changed the mode. *)
Theorem readSwitches_follows_line (P : Platform) (s : State) :
  mode s = 0 \/ mode s = 1 ->
  let lvl := digitalRead P (9 + reads s) MODE_PIN in
  mode (snd (readSwitches P s)) = (match lvl with LOW => 1 | HIGH => 0 end)
  /\ (fst (readSwitches P s) = true <-> mode (snd (readSwitches P s)) <> mode s).
Proof.
  intros Hmode lvl.
  rewrite readSwitches_mode, readSwitches_fst. fold lvl.
  unfold modeMismatch.
  destruct Hmode as [-> | ->]; destruct lvl; simpl;
    (split; [reflexivity | split; intros H; congruence]).
Qed.

Lemma readSwitches_follows_line_witness :
  let P := toggling_bench 35 in
  let s := with_mode 1 (after_polls P 3 initial) in
  let lvl := digitalRead P (9 + reads s) MODE_PIN in
  mode (snd (readSwitches P s)) = (match lvl with LOW => 1 | HIGH => 0 end)
  /\ (fst (readSwitches P s) = true <-> mode (snd (readSwitches P s)) <> mode s).
Proof.
  apply (readSwitches_follows_line (toggling_bench 35)
           (with_mode 1 (after_polls (toggling_bench 35) 3 initial))).
  right. reflexivity.
Defined.

Lemma readSwitches_mode_valid (P : Platform) (s : State) :
  mode s = 0 \/ mode s = 1 ->
  mode (snd (readSwitches P s)) = 0 \/ mode (snd (readSwitches P s)) = 1.
Proof.
  intros Hmode. rewrite readSwitches_mode.
  destruct (modeMismatch _ _); [|exact Hmode].
  destruct (mode s =? 1); [left | right]; reflexivity.
Qed.

Lemma flicker_mode (P : Platform) (s : State) :
  mode (flicker P s)
  = if flicker_due P s then mode (snd (readSwitches P (flicker_clocked P s)))
    else mode s.
Proof.
  rewrite flicker_split.
  destruct (flicker_due P s); [|reflexivity].
  destruct (flicker_tick_fields P (flicker_clocked P s)) as (_ & -> & _).
  reflexivity.
Qed.

Lemma loop_mode_valid (P : Platform) (s : State) :
  mode s = 0 \/ mode s = 1 -> mode (loop P s) = 0 \/ mode (loop P s) = 1.
Proof.
  intros Hmode. unfold loop.
  destruct (mode s =? 0).
  - rewrite flicker_mode.
    destruct (flicker_due P s); [|exact Hmode].
    apply readSwitches_mode_valid. exact Hmode.
  - destruct (mode s =? 1); [|exact Hmode].
    unfold rainbow.
    apply (rainbow_from_preserves P 10 (fun st => mode st = 0 \/ mode st = 1)).
    + apply readSwitches_mode_valid.
    + intros h st. rewrite rainbow_frame_mode. exact id.
    + exact Hmode.
Qed.

(** X6. In every state the sketch reaches between two passes of [loop] the
    mode is 0 or 1, so each pass runs one of the two animators: [loop]
    never falls through its two tests. *)
Theorem reachable_mode (P : Platform) (n : nat) :
  let s := Nat.iter n (loop P) (setup P initial) in
  (mode s = 0 /\ loop P s = flicker P s)
  \/ (mode s = 1 /\ loop P s = rainbow P 10 s).
Proof.
  intros s.
  assert (Hmode : mode s = 0 \/ mode s = 1).
  { subst s. induction n as [|n IH].
    - unfold setup. apply readSwitches_mode_valid. left. reflexivity.
    - rewrite Nat.iter_succ. apply loop_mode_valid. exact IH. }
  clearbody s. unfold loop.
  destruct Hmode as [H | H]; rewrite H; [left | right]; split; reflexivity.
Qed.

(** X7. Rainbow mode is left at once: when [loop] runs in mode 1 and the
    mode line reads HIGH at the first poll, the pass returns what that poll
    left, in mode 0, without setting a pixel or flushing a frame. *)
Theorem loop_leaves_rainbow (P : Platform) (s : State) :
  mode s = 1 ->
  digitalRead P (9 + reads s) MODE_PIN = HIGH ->
  loop P s = snd (readSwitches P s)
  /\ mode (loop P s) = 0
  /\ pixels (loop P s) = pixels s
  /\ out (loop P s) = out s.
Proof.
  intros Hmode Hline.
  assert (Hgo : fst (readSwitches P s) = true)
    by (rewrite readSwitches_fst, Hline, Hmode; reflexivity).
  assert (Hrun : loop P s = snd (readSwitches P s)).
  { unfold loop. rewrite Hmode. cbn [Z.eqb Pos.eqb].
    unfold rainbow. rewrite rainbow_from_step.
    destruct (Z_lt_dec 0 rainbow_limit) as [_|Hge];
      [|unfold rainbow_limit in Hge; lia].
    rewrite Hgo. reflexivity. }
  rewrite Hrun, readSwitches_mode, readSwitches_pixels, readSwitches_out.
  rewrite Hline, Hmode. repeat split.
Qed.

Lemma loop_leaves_rainbow_witness :
  let P := bench HIGH 2 7 in
  let s := with_mode 1 initial in
  loop P s = snd (readSwitches P s)
  /\ mode (loop P s) = 0
  /\ pixels (loop P s) = pixels s
  /\ out (loop P s) = out s.
Proof.
  apply (loop_leaves_rainbow (bench HIGH 2 7) (with_mode 1 initial));
    reflexivity.
Defined.

(** X8. Flicker mode is left only after the tick: when a throttled call of
    [flicker] in mode 0 finds the mode line LOW, it still runs its loop
    over the nine LEDs (every expired candle is reset to the start colours
    less a fresh magnitude, every countdown ends one lower, every pixel is
    set to the colour of its record) and flushes that frame; it returns in
    mode 1, so that the next pass of [loop] runs [rainbow]. *)
Theorem flicker_completes_on_mode_change (P : Platform) (s : State) :
  State_ok s ->
  mode s = 0 ->
  flicker_due P s = true ->
  digitalRead P (9 + reads s) MODE_PIN = LOW ->
  mode (flicker P s) = 1
  /\ out (flicker P s) = Show (pixels (flicker P s)) :: out s
  /\ loop P (flicker P s) = rainbow P 10 (flicker P s)
  /\ forall i : nat, (i < LED_COUNT)%nat ->
       let f0 := flickers s !!! i in
       let f' := flickers (flicker P s) !!! i in
       (candleFlicker.delay f0 <= 0 ->
          0 <= candleFlicker.flicker f' < 40
          /\ candleFlicker.red f' = 255 - candleFlicker.flicker f'
          /\ candleFlicker.green f' = 96 - candleFlicker.flicker f'
          /\ candleFlicker.blue f' = Z.max 0 (12 - candleFlicker.flicker f'))
       /\ candleFlicker.delay f'
          = (if candleFlicker.delay f0 <=? 0 then 50
             else candleFlicker.delay f0) - 1
       /\ pixels (flicker P s) !!! i = flame_pixel f'.
Proof.
  intros Hok Hmode Hdue Hline.
  assert (Hm : mode (flicker P s) = 1).
  { rewrite flicker_mode, Hdue, readSwitches_mode.
    destruct (flicker_clocked_rest P s) as (_ & -> & _ & _ & -> & _).
    rewrite Hline, Hmode. reflexivity. }
  split; [exact Hm|]. split; [|split].
  - rewrite flicker_split, Hdue.
    destruct (flicker_tick_fields P (flicker_clocked P s)) as (-> & _).
    reflexivity.
  - unfold loop. rewrite Hm. reflexivity.
  - intros i Hi. cbv zeta.
    rewrite flicker_split, Hdue.
    pose proof (flicker_clocked_ok P s Hok) as Hok2.
    destruct (flicker_clocked_rest P s) as (_ & _ & Hf2 & _).
    rewrite <- Hf2.
    set (s2 := flicker_clocked P s) in *. clearbody s2.
    destruct (flicker_tick_at P s2 i Hok2 Hi) as (Hreset & _ & Hdelay & Hpx).
    unfold flickerFlickerHigh, flickerStartRed, flickerStartGreen,
      flickerStartBlue, flickerDelayLow in *.
    split; [|split; assumption].
    intros Hle. destruct (Hreset Hle) as (Hmag & Hr & Hg & Hb).
    repeat split; lia.
Qed.

Lemma flicker_completes_on_mode_change_witness :
  let P := bench LOW 2 7 in
  mode (flicker P initial) = 1
  /\ out (flicker P initial) = Show (pixels (flicker P initial)) :: out initial
  /\ loop P (flicker P initial) = rainbow P 10 (flicker P initial)
  /\ forall i : nat, (i < LED_COUNT)%nat ->
       let f0 := flickers initial !!! i in
       let f' := flickers (flicker P initial) !!! i in
       (candleFlicker.delay f0 <= 0 ->
          0 <= candleFlicker.flicker f' < 40
          /\ candleFlicker.red f' = 255 - candleFlicker.flicker f'
          /\ candleFlicker.green f' = 96 - candleFlicker.flicker f'
          /\ candleFlicker.blue f' = Z.max 0 (12 - candleFlicker.flicker f'))
       /\ candleFlicker.delay f'
          = (if candleFlicker.delay f0 <=? 0 then 50
             else candleFlicker.delay f0) - 1
       /\ pixels (flicker P initial) !!! i = flame_pixel f'.
Proof.
  apply (flicker_completes_on_mode_change (bench LOW 2 7) initial).
  - exact initial_ok.
  - reflexivity.
  - reflexivity.
  - reflexivity.
Defined.

(** ** rainbow: what it leaves alone, and how its frames repeat *)

(** X9. A sweep, complete or aborted, never touches the flicker candles
    nor the clock of the throttle: records, random draws and clock globals
    are as before it, so flicker mode resumes where it stopped. *)
Theorem rainbow_keeps_flicker_state (P : Platform) (wait : Z) (s : State) :
  flickers (rainbow P wait s) = flickers s
  /\ draws (rainbow P wait s) = draws s
  /\ ticks (rainbow P wait s) = ticks s
  /\ flickerMillisecondsLast (rainbow P wait s) = flickerMillisecondsLast s
  /\ length (candles (rainbow P wait s)) = length (candles s)
  /\ length (pixels (rainbow P wait s)) = length (pixels s).
Proof.
  unfold rainbow.
  apply (rainbow_from_preserves P wait
           (fun st =>
              flickers st = flickers s
              /\ draws st = draws s
              /\ ticks st = ticks s
              /\ flickerMillisecondsLast st = flickerMillisecondsLast s
              /\ length (candles st) = length (candles s)
              /\ length (pixels st) = length (pixels s))).
  - intros st (Hf & Hd & Ht & Hl & Hc & Hp).
    destruct (readSwitches_clock P st) as (-> & -> & _ & ->).
    rewrite readSwitches_flickers, readSwitches_candles, switched_length,
      readSwitches_pixels.
    repeat split; assumption.
  - intros h st (Hf & Hd & Ht & Hl & Hc & Hp).
    assert (Hlen : length (pixels (rainbow_frame P wait h st))
                   = length (pixels st)).
    { unfold rainbow_frame, delay, show. cbn [pixels emit].
      generalize (numPixels st). intros n.
      induction n as [|n IH]; [reflexivity|].
      rewrite for_upto_S, rainbow_pixel_eq. cbn [pixels with_pixels].
      rewrite length_insert. exact IH. }
    rewrite Hlen.
    destruct (rainbow_frame_shape P wait h st) as (PX & ->).
    repeat split; assumption.
  - repeat split.
Qed.

Lemma rainbow_colour_turn (P : Platform) (n : nat) (h : Z) (i : nat) :
  rainbow_colour P n (h + 65536) i = rainbow_colour P n h i.
Proof.
  unfold rainbow_colour. rewrite !uint16_int16.
  replace (uint16 (h + 65536 + Z.quot (Z.of_nat i * 65536) (Z.of_nat n)))
    with (uint16 (h + Z.quot (Z.of_nat i * 65536) (Z.of_nat n))).
  - reflexivity.
  - unfold uint16.
    replace (h + 65536 + Z.quot (Z.of_nat i * 65536) (Z.of_nat n))
      with (h + Z.quot (Z.of_nat i * 65536) (Z.of_nat n) + 1 * 65536) by lia.
    rewrite Z_mod_plus_full. reflexivity.
Qed.

(** The events listed for step [k + 256] of a sweep are those listed for
    step [k]. *)
Lemma rainbow_frames_repeat (P : Platform) (wait : Z) (k : nat) :
  frame_events P wait (k + 256) = frame_events P wait k.
Proof.
  unfold frame_events, rainbow_pixels.
  do 3 f_equal.
  apply map_ext. intros i.
  replace (256 * Z.of_nat (k + 256)) with (256 * Z.of_nat k + 65536) by lia.
  apply rainbow_colour_turn.
Qed.

Lemma frame_events_turns (P : Platform) (wait : Z) (m k : nat) :
  frame_events P wait (256 * m + k) = frame_events P wait k.
Proof.
  induction m as [|m IH]; [reflexivity|].
  replace (256 * S m + k)%nat with ((256 * m + k) + 256)%nat by lia.
  rewrite rainbow_frames_repeat. exact IH.
Qed.

Lemma sweep_events_app (P : Platform) (wait : Z) (n j : nat) :
  sweep_events P wait (n + j)
  = flat_map (frame_events P wait) (rev (seq n j)) ++ sweep_events P wait n.
Proof.
  unfold sweep_events.
  rewrite seq_app, rev_app_distr, flat_map_app. reflexivity.
Qed.

Lemma flat_map_frames_shift (P : Platform) (wait : Z) (a j : nat) :
  (forall k : nat, frame_events P wait (a + k) = frame_events P wait k) ->
  flat_map (frame_events P wait) (rev (seq a j)) = sweep_events P wait j.
Proof.
  intros Hshift. unfold sweep_events.
  induction j as [|j IH]; [reflexivity|].
  rewrite !seq_S, !rev_app_distr. cbn [rev app flat_map].
  rewrite IH, Hshift. reflexivity.
Qed.

Lemma sweep_events_cycles (P : Platform) (wait : Z) (m : nat) :
  sweep_events P wait (256 * m)
  = concat (replicate m (sweep_events P wait 256)).
Proof.
  induction m as [|m IH]; [reflexivity|].
  replace (256 * S m)%nat with (256 * m + 256)%nat by lia.
  rewrite sweep_events_app, IH.
  rewrite (flat_map_frames_shift P wait (256 * m) 256)
    by (intros k; apply frame_events_turns).
  reflexivity.
Qed.

Lemma rainbow_loop_turn (P : Platform) (h : Z) (n : nat) (s : State) :
  for_upto n (rainbow_pixel P (h + 65536)) s
  = for_upto n (rainbow_pixel P h) s.
Proof.
  induction n as [|n IH]; [reflexivity|].
  rewrite !for_upto_S, IH, !rainbow_pixel_eq, rainbow_colour_turn.
  reflexivity.
Qed.

(** X10. The sweep is five identical turns of the hue wheel.  A frame
    drawn for a base hue one full wheel (65536) higher is the same frame,
    because the hue is cut to sixteen bits on its way to the driver; so
    what an unaborted call of [rainbow] emits is five times the events of
    its first 256 frames. *)
Theorem rainbow_five_turns (P : Platform) (wait : Z) (s : State) :
  length (candles s) = LED_COUNT ->
  numPixels s = LED_COUNT ->
  (forall k : nat, (k < 1280)%nat ->
     fst (readSwitches P (sweep_state P wait k s)) = false) ->
  (forall (h : Z) (st : State),
     rainbow_frame P wait (h + 65536) st = rainbow_frame P wait h st)
  /\ out (sweep_state P wait 256 s) = sweep_events P wait 256 ++ out s
  /\ out (rainbow P wait s)
     = concat (replicate 5 (sweep_events P wait 256)) ++ out s.
Proof.
  intros Hc Hp Hquiet.
  split; [|split].
  - intros h st. unfold rainbow_frame.
    rewrite rainbow_loop_turn. reflexivity.
  - destruct (sweep_state_inv P wait 256 s Hc Hp) as (_ & _ & Ho & _).
    exact Ho.
  - rewrite (rainbow_reaches P wait 1280 s) by (try lia; exact Hquiet).
    rewrite rainbow_from_step.
    destruct (Z_lt_dec (256 * Z.of_nat 1280) rainbow_limit) as [Hlt|_];
      [unfold rainbow_limit in Hlt; lia|].
    destruct (sweep_state_inv P wait 1280 s Hc Hp) as (_ & _ & -> & _).
    apply (f_equal (fun l => l ++ out s)).
    change 1280%nat with (256 * 5)%nat.
    apply sweep_events_cycles.
Qed.

Lemma rainbow_five_turns_witness :
  let P := bench LOW 2 0 in
  let s := with_mode 1 initial in
  (forall (h : Z) (st : State),
     rainbow_frame P 10 (h + 65536) st = rainbow_frame P 10 h st)
  /\ out (sweep_state P 10 256 s) = sweep_events P 10 256 ++ out s
  /\ out (rainbow P 10 s)
     = concat (replicate 5 (sweep_events P 10 256)) ++ out s.
Proof.
  apply (rainbow_five_turns (bench LOW 2 0) 10 (with_mode 1 initial)).
  - reflexivity.
  - reflexivity.
  - intros k _. apply bench_low_quiet.
Defined.

(** The loop over the pixels from any state: each pixel visited gets the
    colour of its hue if its candle is on and is cleared if it is off. *)
Lemma rainbow_loop_any (P : Platform) (firstPixelHue : Z) (m n : nat) (s : State) :
  numPixels s = m ->
  (n <= m)%nat ->
  for_upto n (rainbow_pixel P firstPixelHue) s =
  with_pixels
    (map (fun i => if candleLed.state (candles s !!! i)
                   then rainbow_colour P m firstPixelHue i else (0, 0, 0))
       (seq 0 n) ++ drop n (pixels s)) s.
Proof.
  intros Hm. induction n as [|n IH]; intros Hn.
  - rewrite for_upto_0. simpl. rewrite drop_0. destruct s; reflexivity.
  - rewrite for_upto_S, IH by lia.
    rewrite rainbow_pixel_eq.
    cbn [candles pixels with_pixels numPixels].
    unfold numPixels in *. cbn [pixels with_pixels].
    rewrite length_app, length_map, length_seq, length_drop.
    replace (n + (length (pixels s) - n))%nat with m by lia.
    unfold with_pixels. cbn [candles mode flickerMillisecondsCurrent
      flickerMillisecondsDifference flickerMillisecondsLast flickers pixels
      reads ticks draws out].
    f_equal.
    destruct (lookup_lt_is_Some_2 (pixels s) n) as [x Hx]; [lia|].
    rewrite (drop_S _ _ _ Hx).
    rewrite insert_app_r_alt by (rewrite length_map, length_seq; lia).
    rewrite length_map, length_seq, Nat.sub_diag.
    rewrite seq_S, map_app, <- app_assoc. reflexivity.
Qed.

(** X11. In a rainbow frame drawn from any state, the pixel of a candle
    that is off is cleared to (0,0,0) and the pixel of a candle that is on
    gets the gamma-corrected colour of its hue; the frame flushed is the
    whole strip after all pixels were set. *)
Theorem rainbow_frame_render (P : Platform) (wait firstPixelHue : Z)
  (s : State) (i : nat) :
  (i < numPixels s)%nat ->
  let s' := rainbow_frame P wait firstPixelHue s in
  pixels s' !!! i
  = (if candleLed.state (candles s !!! i)
     then rainbow_colour P (numPixels s) firstPixelHue i else (0, 0, 0))
  /\ out s' = Delay (uint32 wait) :: Show (pixels s') :: out s.
Proof.
  intros Hi s'. subst s'. unfold rainbow_frame.
  rewrite (rainbow_loop_any P firstPixelHue (numPixels s) (numPixels s) s)
    by reflexivity.
  unfold delay, show. cbn [pixels out emit with_pixels].
  split; [|reflexivity].
  rewrite drop_ge by reflexivity. rewrite app_nil_r.
  change (map ?f ?l) with (f <$> l).
  apply list_lookup_total_correct.
  rewrite list_lookup_fmap, lookup_seq_lt by exact Hi.
  reflexivity.
Qed.

Lemma rainbow_frame_render_witness :
  let s' := rainbow_frame (bench LOW 2 7) 10 256 initial in
  pixels s' !!! 4%nat
  = (if candleLed.state (candles initial !!! 4%nat)
     then rainbow_colour (bench LOW 2 7) (numPixels initial) 256 4
     else (0, 0, 0))
  /\ out s' = Delay (uint32 10) :: Show (pixels s') :: out initial.
Proof.
  apply (rainbow_frame_render (bench LOW 2 7) 10 256 initial 4).
  vm_compute. lia.
Defined.

(** ** The candles and the start-up *)

Lemma flicker_tick_candles (P : Platform) (s : State) :
  candles (flicker_tick P s) = switched LED_COUNT (candles s).
Proof.
  destruct (flicker_tick_start P s) as (s2 & -> & Hc2 & _).
  destruct (show_arrays (for_upto LED_COUNT (flicker_led P) s2)) as (-> & _).
  rewrite flicker_loop_candles. exact Hc2.
Qed.

Lemma switched_initial :
  switched LED_COUNT (map (candleLed.with_state true) initial_candles)
  = map (candleLed.with_state true) initial_candles.
Proof. reflexivity. Qed.

(** X12. In every state the sketch reaches between two passes of [loop],
    all nine candles are on and each keeps the order and the pin it was
    declared with: the state of a candle never depends on its switch. *)
Theorem reachable_candles (P : Platform) (n : nat) :
  candles (Nat.iter n (loop P) (setup P initial))
  = map (candleLed.with_state true) initial_candles.
Proof.
  induction n as [|n IH].
  - cbn [Nat.iter nat_rect]. unfold setup.
    rewrite readSwitches_candles. reflexivity.
  - rewrite Nat.iter_succ.
    set (s := Nat.iter n (loop P) (setup P initial)) in *. clearbody s.
    unfold loop.
    destruct (mode s =? 0).
    + rewrite flicker_split.
      destruct (flicker_due P s); [|exact IH].
      rewrite flicker_tick_candles.
      destruct (flicker_clocked_rest P s) as (-> & _).
      rewrite IH. exact switched_initial.
    + destruct (mode s =? 1); [|exact IH].
      unfold rainbow.
      apply (rainbow_from_preserves P 10
               (fun st => candles st
                          = map (candleLed.with_state true) initial_candles)).
      * intros st Hst. rewrite readSwitches_candles, Hst.
        exact switched_initial.
      * intros h st Hst.
        destruct (rainbow_frame_shape P 10 h st) as (PX & ->). exact Hst.
      * exact IH.
Qed.

(** X13. [setup] flushes one dark frame of nine pixels, reads the ten
    lines once, switches every candle on and starts in the mode the mode
    line asks for: rainbow if it reads LOW, flicker if it reads HIGH. *)
Theorem setup_start (P : Platform) :
  out (setup P initial) = [Show (replicate 9 (0, 0, 0))]
  /\ pixels (setup P initial) = replicate 9 (0, 0, 0)
  /\ reads (setup P initial) = 10%nat
  /\ draws (setup P initial) = 0%nat
  /\ flickers (setup P initial) = initial_flickers
  /\ mode (setup P initial)
     = (match digitalRead P 9 MODE_PIN with LOW => 1 | HIGH => 0 end).
Proof.
  unfold setup.
  set (s1 := show _).
  destruct (readSwitches_clock P s1) as (_ & Hd & _).
  rewrite readSwitches_out, readSwitches_pixels, readSwitches_reads,
    readSwitches_flickers, readSwitches_mode, Hd.
  subst s1. cbn [out pixels reads draws flickers mode show emit with_pixels].
  repeat split.
  cbn [initial reads mode]. unfold modeMismatch.
  change (9 + 0)%nat with 9%nat.
  destruct (digitalRead P 9 MODE_PIN); reflexivity.
Qed.

(** ** flicker: the random draws *)

Lemma flicker_led_draws (P : Platform) (i : nat) (s : State) :
  draws (flicker_led P i s)
  = (draws s
     + if (candleFlicker.delay (flickers s !!! i) <=? 0)%Z then 1 else 0)%nat.
Proof.
  rewrite flicker_led_eq. cbv zeta.
  destruct (candleFlicker.delay (flickers s !!! i) <=? 0).
  - rewrite (flicker_reset_eq P i s).
    cbn [draws with_flickers with_pixels with_draws].
    rewrite Nat.add_1_r. reflexivity.
  - cbn [draws with_flickers with_pixels].
    rewrite Nat.add_0_r. reflexivity.
Qed.

Lemma flicker_loop_draws (P : Platform) (n : nat) (s : State) :
  draws (for_upto n (flicker_led P) s)
  = (draws s + expired_before (flickers s) n)%nat.
Proof.
  induction n as [|n IH].
  - rewrite for_upto_0. cbn [expired_before]. lia.
  - rewrite for_upto_S, flicker_led_draws, IH.
    destruct (flicker_loop_untouched P n n s (Nat.le_refl n)) as [-> _].
    cbn [expired_before]. lia.
Qed.

(** X14. Within one pass of the loop over the LEDs every candle that is
    reset takes its own value from the generator, in LED order: the
    magnitude of candle [i] is the raw value number [draws + e] modulo 40,
    where [e] counts the expired candles before [i]; the pass consumes one
    raw value per expired candle and none for the countdowns. *)
Theorem flicker_magnitudes_in_order (P : Platform) (s : State) (i : nat) :
  (i < LED_COUNT)%nat ->
  length (flickers s) = LED_COUNT ->
  candleFlicker.delay (flickers s !!! i) <= 0 ->
  let s' := for_upto LED_COUNT (flicker_led P) s in
  candleFlicker.flicker (flickers s' !!! i)
  = Z.rem (Z.of_N (rawRandom P (draws s + expired_before (flickers s) i))) 40
  /\ draws s' = (draws s + expired_before (flickers s) LED_COUNT)%nat.
Proof.
  intros Hi Hlen Hdue s'. subst s'.
  split; [|apply flicker_loop_draws].
  destruct (flicker_loop_turn P s i Hi) as (-> & _ & Hfi & _ & Hlf & _).
  pose proof (flicker_loop_draws P i s) as Hdraws.
  set (si := for_upto i (flicker_led P) s) in *. clearbody si.
  rewrite flicker_led_eq. cbv zeta. cbn [flickers with_flickers with_pixels].
  rewrite Hfi.
  destruct (Z.leb_spec (candleFlicker.delay (flickers s !!! i)) 0); [|lia].
  rewrite list_lookup_total_insert_eq
    by (rewrite flicker_reset_length, Hlf, Hlen; exact Hi).
  rewrite (flicker_reset_at P i si) by (rewrite Hlf, Hlen; exact Hi).
  cbn [candleFlicker.flicker candleFlicker.with_delay].
  rewrite random_flicker, Hdraws. reflexivity.
Qed.

Lemma flicker_magnitudes_in_order_witness :
  let P := toggling_bench 35 in
  let s' := for_upto LED_COUNT (flicker_led P) initial in
  candleFlicker.flicker (flickers s' !!! 5%nat)
  = Z.rem (Z.of_N (rawRandom P (draws initial
                                + expired_before (flickers initial) 5))) 40
  /\ draws s' = (draws initial + expired_before (flickers initial) LED_COUNT)%nat.
Proof.
  apply (flicker_magnitudes_in_order (toggling_bench 35) initial 5).
  - unfold LED_COUNT. lia.
  - reflexivity.
  - vm_compute. discriminate.
Defined.

(** ** A throttled tick, LED by LED *)



(** ** The hue that reaches the driver *)

(** C9. In a rainbow frame on the nine-pixel strip, the hue handed to
    [ColorHSV] for a lit position [i] is the frame's base hue plus
    [i * 65536 / 9], cut to sixteen bits, and the pixel is set to the
    gamma-corrected colour of that hue.  Relative to position 0 the hue of
    position [i] is [i * 65536 / 9] further round the wheel: nothing for
    position 0, steps of 7281 or 7282 from one position to the next, and
    58254, short of a full turn of 65536, for position 8. *)
Theorem rainbow_frame_hue (P : Platform) (wait firstPixelHue : Z)
  (s : State) (i : nat) :
  numPixels s = LED_COUNT ->
  (i < LED_COUNT)%nat ->
  candleLed.state (candles s !!! i) = true ->
  let hue := fun j : nat => (firstPixelHue + Z.of_nat j * 65536 / 9) mod 65536 in
  let c := gamma32 P (ColorHSV P (hue i)) in
  pixels (rainbow_frame P wait firstPixelHue s) !!! i
  = (uint8 (Z.shiftr c 16), uint8 (Z.shiftr c 8), uint8 c)
  /\ uint16 (pixelHue firstPixelHue i s) = hue i
  /\ hueOffset i s = Z.of_nat i * 65536 / 9
  /\ (hue i - hue 0%nat) mod 65536 = Z.of_nat i * 65536 / 9
  /\ hue 0%nat = firstPixelHue mod 65536
  /\ ((i < 8)%nat ->
      7281 <= Z.of_nat (S i) * 65536 / 9 - Z.of_nat i * 65536 / 9 <= 7282)
  /\ Z.of_nat 8 * 65536 / 9 = 58254
  /\ 58254 < 65536.
Proof.
  intros Hn Hi Hon hue c. subst c hue. cbv beta.
  assert (Hoff : hueOffset i s = Z.of_nat i * 65536 / 9)
    by (apply hueOffset_nine; exact Hn).
  assert (Hhue : uint16 (pixelHue firstPixelHue i s)
                 = (firstPixelHue + Z.of_nat i * 65536 / 9) mod 65536).
  { unfold pixelHue. rewrite uint16_int16, Hoff. reflexivity. }
  assert (Hrange : 0 <= Z.of_nat i * 65536 / 9 < 65536).
  { unfold LED_COUNT in Hi. split.
    - apply Z.div_pos; lia.
    - apply Z.div_lt_upper_bound; lia. }
  split.
  { unfold rainbow_frame, delay, show. cbn [pixels emit].
    rewrite (rainbow_loop_any P firstPixelHue (numPixels s) (numPixels s) s)
      by reflexivity.
    cbn [pixels with_pixels].
    rewrite drop_ge by reflexivity. rewrite app_nil_r.
    change (map ?f ?l) with (f <$> l).
    erewrite list_lookup_total_correct;
      [|rewrite list_lookup_fmap, lookup_seq_lt by (rewrite Hn; exact Hi);
        reflexivity].
    cbn [fmap option_fmap option_map Nat.add].
    rewrite Hon. unfold rainbow_colour.
    rewrite uint16_int16, Hn.
    change (Z.of_nat LED_COUNT) with 9.
    rewrite Z.quot_div_nonneg by lia.
    reflexivity. }
  split; [exact Hhue|]. split; [exact Hoff|].
  split.
  { rewrite <- Zminus_mod.
    change (Z.of_nat 0 * 65536 / 9) with 0.
    replace (firstPixelHue + Z.of_nat i * 65536 / 9 - (firstPixelHue + 0))
      with (Z.of_nat i * 65536 / 9) by lia.
    apply Z.mod_small. exact Hrange. }
  split.
  { change (Z.of_nat 0 * 65536 / 9) with 0. rewrite Z.add_0_r. reflexivity. }
  split.
  { intros Hi8.
    do 8 (destruct i as [|i]; [vm_compute; split; discriminate|]).
    lia. }
  split; reflexivity.
Qed.

(** LED 4 in the last frame of a sweep (base hue 327424), after a poll has
    switched the candles on. *)
Lemma rainbow_frame_hue_witness :
  let P := bench LOW 2 0 in
  let s := snd (readSwitches P (with_mode 1 initial)) in
  let hue := fun j : nat => (327424 + Z.of_nat j * 65536 / 9) mod 65536 in
  let c := gamma32 P (ColorHSV P (hue 4%nat)) in
  pixels (rainbow_frame P 10 327424 s) !!! 4%nat
  = (uint8 (Z.shiftr c 16), uint8 (Z.shiftr c 8), uint8 c)
  /\ uint16 (pixelHue 327424 4 s) = hue 4%nat
  /\ hueOffset 4 s = Z.of_nat 4 * 65536 / 9
  /\ (hue 4%nat - hue 0%nat) mod 65536 = Z.of_nat 4 * 65536 / 9
  /\ hue 0%nat = 327424 mod 65536
  /\ ((4 < 8)%nat ->
      7281 <= Z.of_nat 5 * 65536 / 9 - Z.of_nat 4 * 65536 / 9 <= 7282)
  /\ Z.of_nat 8 * 65536 / 9 = 58254
  /\ 58254 < 65536.
Proof.
  apply (rainbow_frame_hue (bench LOW 2 0) 10 327424
           (snd (readSwitches (bench LOW 2 0) (with_mode 1 initial))) 4).
  - reflexivity.
  - unfold LED_COUNT. lia.
  - reflexivity.
Defined.
